(** * Wav2Vec2Masker: span masking of feature-extractor outputs

    A shallow embedding of [src/fairseq2/models/wav2vec2/masker.py]
    ([Wav2Vec2Masker.__init__], [reset_parameters], [forward] and
    [apply_temporal_mask]) over a small model of the tensor operations the
    module calls, followed by the properties of the masker. *)

From Stdlib Require Import ZArith Lia List Bool String.
From Stdlib Require Import Floats.SpecFloat.
From stdpp Require Import base list.

Local Open Scope nat_scope.

(** ** Python values *)

(** A Python [float] is an IEEE 754 binary64 value; [spec_float] gives its
    comparison semantics (signed zeros compare equal, NaN compares false). *)
Definition float : Type := spec_float.

Definition zero : float := S754_zero false.

(** [0.65], the default of [max_temporal_mask_prob]:
    5854679515581645 * 2^-53. *)
Definition default_max_temporal_mask_prob : float :=
  S754_finite false 5854679515581645 (-53).

(** Python's [a == b] and [a > b] on floats. *)
Definition float_eq (a b : float) : bool := SFeqb a b.
Definition float_gt (a b : float) : bool := SFltb b a.

(** The exceptions the module and the tensor operations raise. *)
Inductive exn : Type :=
| ValueError (msg : string)
| AssertionError
| IndexError
| RuntimeError.

Inductive outcome (A : Type) : Type :=
| Ok (a : A)
| Raise (e : exn).
Arguments Ok {A} a.
Arguments Raise {A} e.

(** ** Tensors *)

(** A tensor is its shape, its elements in row-major order and the device
    it lives on.  Floating tensors hold binary64 values whatever [dtype]
    was asked for: precision plays no part in which positions are written.
    Every tensor owns its elements: views that share the memory of another
    tensor, and the errors of mixing dtypes or devices, are not modelled. *)
Record tensor (A : Type) : Type := Tensor {
  shape : list nat;
  data : list A;
  device : string
}.
Arguments Tensor {A} shape data device.
Arguments shape {A} t.
Arguments data {A} t.
Arguments device {A} t.

Definition numel (s : list nat) : nat := foldr Nat.mul 1 s.
Arguments numel : simpl never.

(** Every tensor the tensor library hands out has as many elements as its
    shape says. *)
Definition wf_tensor {A} (t : tensor A) : Prop :=
  length (data t) = numel (shape t).

Definition count_true (l : list bool) : nat := length (List.filter id l).

(** *** Broadcasting *)

(** Shapes are aligned at their last dimension, so both functions run over
    reversed shapes. *)
Fixpoint expandable_rev (src tgt : list nat) : bool :=
  match src, tgt with
  | [], _ => true
  | _ :: _, [] => false
  | a :: src', b :: tgt' =>
      ((a =? b) || (a =? 1)) && expandable_rev src' tgt'
  end.

Definition is_expandable_to (src tgt : list nat) : bool :=
  expandable_rev (rev src) (rev tgt).

(** The row-major index in a tensor of shape [src] that the element at
    row-major index [i] of its expansion to [tgt] is read from. *)
Fixpoint expand_index_rev (src tgt : list nat) (i : nat) : nat :=
  match src, tgt with
  | a :: src', b :: tgt' =>
      (if a =? 1 then 0 else i mod b) + a * expand_index_rev src' tgt' (i / b)
  | _, _ => 0
  end.

Definition expand_index (src tgt : list nat) (i : nat) : nat :=
  expand_index_rev (rev src) (rev tgt) i.

(** *** Indexing with a boolean mask *)

(** How many [True] entries precede position [r]. *)
Definition masked_rank (mask : list bool) (r : nat) : nat :=
  count_true (take r mask).

(** [self[mask] = value]: the shape of [mask] must be a prefix of the shape
    of [self] (IndexError otherwise) and [value] must broadcast to the
    shape of the selection, [count :: rest] (RuntimeError otherwise).  The
    k-th selected slice receives the k-th slice of the expanded value. *)
Definition setitem_mask (self : tensor float) (mask : tensor bool)
    (value : tensor float) : outcome (tensor float) :=
  let k := length (shape mask) in
  if decide (shape mask = take k (shape self)) then
    let rest := drop k (shape self) in
    let inner := numel rest in
    let sel := count_true (data mask) :: rest in
    if is_expandable_to (shape value) sel then
      Ok {| shape := shape self;
            data := imap (fun i x =>
                      let r := i / inner in
                      if nth r (data mask) false
                      then nth (expand_index (shape value) sel
                                  (masked_rank (data mask) r * inner + i mod inner))
                               (data value) x
                      else x) (data self);
            device := device self |}
    else Raise RuntimeError
  else Raise IndexError.

(** [self[mask] = c] for a Python scalar [c]. *)
Definition setitem_mask_scalar (self : tensor float) (mask : tensor bool)
    (c : float) : outcome (tensor float) :=
  setitem_mask self mask {| shape := []; data := [c]; device := device self |}.

(** The indices of the [True] entries of a mask, in row-major order. *)
Definition nonzero (mask : list bool) : list nat :=
  List.filter (fun r => nth r mask false) (seq 0 (length mask)).

(** The [r]-th slice of [inner] consecutive elements. *)
Definition slice {A} (inner : nat) (l : list A) (r : nat) : list A :=
  take inner (drop (r * inner) l).

(** [self[mask]]: a new tensor of shape [count :: rest] holding the
    selected slices in row-major order of the mask. *)
Definition getitem_mask {A} (self : tensor A) (mask : tensor bool)
    : outcome (tensor A) :=
  let k := length (shape mask) in
  if decide (shape mask = take k (shape self)) then
    let rest := drop k (shape self) in
    let rows := nonzero (data mask) in
    Ok {| shape := length rows :: rest;
          data := flat_map (slice (numel rest) (data self)) rows;
          device := device self |}
  else Raise IndexError.

(** *** Views *)

(** [self.size(0)]. *)
Definition size0 {A} (self : tensor A) : outcome nat :=
  match shape self with
  | [] => Raise IndexError
  | n :: _ => Ok n
  end.

(** [self.unflatten(0, (n, -1))]: dimension 0, of size [t], becomes
    [(n, t / n)]; the size [-1] stands for cannot be inferred when [n] is 0
    or does not divide [t]. *)
Definition unflatten0 {A} (self : tensor A) (n : nat) : outcome (tensor A) :=
  match shape self with
  | [] => Raise IndexError
  | t :: rest =>
      if n =? 0 then Raise RuntimeError
      else if t mod n =? 0
      then Ok {| shape := n :: t / n :: rest; data := data self;
                 device := device self |}
      else Raise RuntimeError
  end.

(** [self.unsqueeze(dim)] for a non-negative [dim]. *)
Definition unsqueeze {A} (dim : nat) (self : tensor A) : outcome (tensor A) :=
  if dim <=? length (shape self)
  then Ok {| shape := take dim (shape self) ++ 1 :: drop dim (shape self);
             data := data self; device := device self |}
  else Raise IndexError.

(** The shape of [self.expand(sizes...)], over reversed shapes: [-1] keeps a
    dimension, a dimension of size 1 may grow, and [-1] is refused for a
    dimension [self] does not have. *)
Fixpoint expand_shape_rev (src : list nat) (sizes : list Z) : option (list nat) :=
  match src, sizes with
  | [], [] => Some []
  | [], z :: sizes' =>
      if (z <? 0)%Z then None
      else cons (Z.to_nat z) <$> expand_shape_rev [] sizes'
  | _ :: _, [] => None
  | a :: src', z :: sizes' =>
      if (z =? -1)%Z then cons a <$> expand_shape_rev src' sizes'
      else if ((0 <=? z)%Z && ((Z.to_nat z =? a) || (a =? 1)))%bool
      then cons (Z.to_nat z) <$> expand_shape_rev src' sizes'
      else None
  end.

(** [self.expand(sizes...)] on a boolean tensor. *)
Definition expand (self : tensor bool) (sizes : list Z) : outcome (tensor bool) :=
  match expand_shape_rev (rev (shape self)) (rev sizes) with
  | Some rtgt =>
      let tgt := rev rtgt in
      Ok {| shape := tgt;
            data := map (fun i => nth (expand_index (shape self) tgt i)
                                      (data self) false)
                        (seq 0 (numel tgt));
            device := device self |}
  | None => Raise RuntimeError
  end.

(** ** The interpreter state *)

(** Tensors are objects: the program holds references to them, and a write
    through one reference is seen through every other. *)
Abbreviation loc := nat (only parsing).

Inductive cell : Type :=
| CFloat (t : tensor float)
| CBool (t : tensor bool).

Definition cell_shape (c : cell) : list nat :=
  match c with CFloat t => shape t | CBool t => shape t end.

Definition cell_device (c : cell) : string :=
  match c with CFloat t => device t | CBool t => device t end.

(** The keyword arguments of one call of [compute_mask]. *)
Record mask_request : Type := MaskRequest {
  req_shape : nat * nat;
  req_span_len : Z;
  req_max_mask_prob : float;
  req_row_lens : option (tensor Z);
  req_min_num_spans : Z;
  req_device : string
}.

(** The heap of tensor objects, the state of the random generator and the
    calls of [compute_mask] made so far, oldest first. *)
Record world (rng : Type) : Type := World {
  heap : list cell;
  gen : rng;
  requests : list mask_request
}.
Arguments World {rng} heap gen requests.
Arguments heap {rng} w.
Arguments gen {rng} w.
Arguments requests {rng} w.

(** A computation runs on a world and ends with a value or an exception;
    the writes made before an exception stay. *)
Definition M (rng A : Type) : Type := world rng -> outcome A * world rng.

Definition ret {rng A} (a : A) : M rng A := fun w => (Ok a, w).

Definition raise {rng A} (e : exn) : M rng A := fun w => (Raise e, w).

Definition bind {rng A B} (m : M rng A) (k : A -> M rng B) : M rng B :=
  fun w =>
    match m w with
    | (Ok a, w') => k a w'
    | (Raise e, w') => (Raise e, w')
    end.

Declare Scope py_scope.
Delimit Scope py_scope with py.
Notation "x ← y ; z" := (bind y (fun x => z))
  (at level 20, y at level 100, z at level 200, only parsing) : py_scope.
Notation "' x ← y ; z" := (bind y (fun x => z))
  (at level 20, x pattern, y at level 100, z at level 200, only parsing) : py_scope.
Notation "x ;; z" := (bind x (fun _ => z))
  (at level 100, z at level 200, only parsing, right associativity) : py_scope.

Definition lift {rng A} (o : outcome A) : M rng A := fun w => (o, w).

(** Dereference; a reference to no object does not occur in a Python
    program and is answered with RuntimeError. *)
Definition load {rng} (l : loc) : M rng cell :=
  fun w => match heap w !! l with
           | Some c => (Ok c, w)
           | None => (Raise RuntimeError, w)
           end.

Definition store {rng} (l : loc) (c : cell) : M rng unit :=
  fun w => (Ok tt, World (<[l := c]> (heap w)) (gen w) (requests w)).

Definition alloc {rng} (c : cell) : M rng loc :=
  fun w => (Ok (length (heap w)), World (heap w ++ [c]) (gen w) (requests w)).

(** A floating tensor is expected where an operation combines the object
    with floating values: mixing dtypes is a RuntimeError. *)
Definition load_float {rng} (l : loc) : M rng (tensor float) :=
  (c ← load l;
   match c with
   | CFloat t => ret t
   | CBool _ => raise RuntimeError
   end)%py.

(** An index must be a boolean tensor: a floating one is an IndexError. *)
Definition load_mask {rng} (l : loc) : M rng (tensor bool) :=
  (c ← load l;
   match c with
   | CBool t => ret t
   | CFloat _ => raise IndexError
   end)%py.

(** [seqs[mask] = value] on the object [seqs]. *)
Definition setitem {rng} (seqs : loc) (mask : tensor bool)
    (value : tensor float) : M rng unit :=
  (x ← load_float seqs;
   x' ← lift (setitem_mask x mask value);
   store seqs (CFloat x'))%py.

(** [seqs[mask] = c] on the object [seqs], for a Python scalar [c]. *)
Definition setitem_scalar {rng} (seqs : loc) (mask : tensor bool)
    (c : float) : M rng unit :=
  (x ← load_float seqs;
   x' ← lift (setitem_mask_scalar x mask c);
   store seqs (CFloat x'))%py.

(** [a, b, c = shape], with the messages of the tuple unpacking. *)
Definition unpack3 {rng} (s : list nat) : M rng (nat * nat * nat) :=
  match s with
  | [a; b; c] => ret (a, b, c)
  | [] => raise (ValueError "not enough values to unpack (expected 3, got 0)")
  | [_] => raise (ValueError "not enough values to unpack (expected 3, got 1)")
  | [_; _] =>
      raise (ValueError "not enough values to unpack (expected 3, got 2)")
  | _ => raise (ValueError "too many values to unpack (expected 3)")
  end.

Definition default_device : string := "cpu".

(** [torch.empty((n,), device=device)]: a negative size is a RuntimeError.
    The contents are unspecified; zeros stand for them.  Memory is taken to
    be unbounded and [n] to fit a machine integer: the failures of sizes of
    2^62 elements and more have no counterpart here. *)
Definition torch_empty {rng} (n : Z) (dev : option string) : M rng loc :=
  if (n <? 0)%Z then raise RuntimeError
  else alloc (CFloat {| shape := [Z.to_nat n];
                        data := replicate (Z.to_nat n) zero;
                        device := default default_device dev |}).

(** ** The masker *)

(** The attributes of a [Wav2Vec2Masker]; [temporal_mask_embed] refers to
    the parameter tensor the module owns. *)
Record Wav2Vec2Masker : Type := {
  temporal_span_len : Z;
  max_temporal_mask_prob : float;
  temporal_mask_embed : loc;
  spatial_span_len : Z;
  max_spatial_mask_prob : float
}.

Section Masker.
Context {rng : Type}.

(** One draw of the generator from the uniform distribution on [0, 1). *)
Variable next_uniform : rng -> float * rng.

(** Modelled from the spec: [fairseq2.nn.utils.mask.compute_mask], the
    mask-span sampler, is not part of the sources at hand.  It is taken as
    a function of the request and the generator that answers with a
    boolean tensor, with [None], or with an exception. *)
Variable compute_mask :
  mask_request -> rng -> outcome (option (tensor bool)) * rng.

Local Open Scope py_scope.

Definition call_compute_mask (req : mask_request)
    : M rng (option (tensor bool)) :=
  fun w =>
    let '(r, g) := compute_mask req (gen w) in
    (r, World (heap w) g (requests w ++ [req])).

Fixpoint draws (n : nat) (g : rng) : list float * rng :=
  match n with
  | 0 => ([], g)
  | S n' =>
      let '(x, g1) := next_uniform g in
      let '(xs, g2) := draws n' g1 in
      (x :: xs, g2)
  end.

(** [nn.init.uniform_(tensor)]: every element is drawn anew, in place. *)
Definition uniform_ (l : loc) : M rng unit :=
  t ← load_float l;
  fun w =>
    let '(xs, g) := draws (length (data t)) (gen w) in
    (Ok tt,
     World (<[l := CFloat {| shape := shape t; data := xs;
                             device := device t |}]> (heap w))
           g (requests w)).

Definition reset_parameters (self : Wav2Vec2Masker) : M rng unit :=
  uniform_ (temporal_mask_embed self).

(** The constructor.  Its [dtype] argument has no counterpart: it is taken
    to be a floating dtype, the one of the batches the masker is used on,
    as every floating tensor here holds binary64 values. *)
Definition __init__ (model_dim : Z) (temporal_span_len : Z)
    (max_temporal_mask_prob : float) (spatial_span_len : Z)
    (max_spatial_mask_prob : float) (device : option string)
    : M rng Wav2Vec2Masker :=
  if float_eq max_temporal_mask_prob zero then
    raise (ValueError "`max_temporal_mask_prob` must be greater than 0.")
  else
    temporal_mask_embed ← torch_empty model_dim device;
    let self :=
      Build_Wav2Vec2Masker temporal_span_len max_temporal_mask_prob
        temporal_mask_embed spatial_span_len max_spatial_mask_prob in
    reset_parameters self;;
    ret self.

(** The constructor with its default arguments. *)
Definition Wav2Vec2Masker_defaults (model_dim : Z) : M rng Wav2Vec2Masker :=
  __init__ model_dim 10 default_max_temporal_mask_prob 10 zero None.

Definition forward (self : Wav2Vec2Masker) (seqs : loc)
    (seq_lens : option (tensor Z)) : M rng (loc * loc) :=
  x ← load seqs;
  '(batch_size, seq_len, model_dim) ← unpack3 (cell_shape x);
  (* Temporal mask over time steps. *)
  temporal_mask ← call_compute_mask
    {| req_shape := (batch_size, seq_len);
       req_span_len := temporal_span_len self;
       req_max_mask_prob := max_temporal_mask_prob self;
       req_row_lens := seq_lens;
       req_min_num_spans := 2;
       req_device := cell_device x |};
  match temporal_mask with
  | None => raise AssertionError
  | Some tm =>
      temporal_mask ← alloc (CBool tm);
      embed ← load_float (temporal_mask_embed self);
      setitem seqs tm embed;;
      (if float_gt (max_spatial_mask_prob self) zero then
         (* Spatial mask over features. *)
         spatial_mask ← call_compute_mask
           {| req_shape := (batch_size, model_dim);
              req_span_len := spatial_span_len self;
              req_max_mask_prob := max_spatial_mask_prob self;
              req_row_lens := None;
              req_min_num_spans := 2;
              req_device := cell_device x |};
         match spatial_mask with
         | None => raise AssertionError
         | Some sm =>
             sm1 ← lift (unsqueeze 1 sm);
             sm2 ← lift (expand sm1 [-1; Z.of_nat seq_len; -1]%Z);
             setitem_scalar seqs sm2 zero
         end
       else ret tt);;
      ret (seqs, temporal_mask)
  end.

(** [x[temporal_mask].unflatten(0, (x.size(0), -1))]: the selection is a
    new tensor and the result is a view of it, so one object is made. *)
Definition apply_temporal_mask (x : loc) (temporal_mask : loc) : M rng loc :=
  cx ← load x;
  m ← load_mask temporal_mask;
  match cx with
  | CFloat t =>
      sel ← lift (getitem_mask t m);
      n ← lift (size0 t);
      r ← lift (unflatten0 sel n);
      alloc (CFloat r)
  | CBool t =>
      sel ← lift (getitem_mask t m);
      n ← lift (size0 t);
      r ← lift (unflatten0 sel n);
      alloc (CBool r)
  end.

(** The tensor [__init__] creates for [temporal_mask_embed]. *)
Definition new_embed (model_dim : Z) (dev : option string) (g : rng)
    : tensor float :=
  {| shape := [Z.to_nat model_dim];
     data := fst (draws (Z.to_nat model_dim) g);
     device := default default_device dev |}.

End Masker.

(** ** Reading tensors by position *)

(** The element at row [r], column [c] of a tensor of shape (R, C). *)
Definition at2 {A} (t : tensor A) (d : A) (r c : nat) : A :=
  match shape t with
  | [_; C] => nth (r * C + c) (data t) d
  | _ => d
  end.

(** The element at (n, s, m) of a tensor of shape (N, S, M). *)
Definition at3 {A} (t : tensor A) (d : A) (n s m : nat) : A :=
  match shape t with
  | [_; T; M] => nth ((n * T + s) * M + m) (data t) d
  | _ => d
  end.

(** The feature vector at (n, s) of a tensor of shape (N, S, M). *)
Definition feature {A} (t : tensor A) (n s : nat) : list A :=
  match shape t with
  | [_; T; M] => slice M (data t) (n * T + s)
  | _ => []
  end.

(** A vector of length [M] or 1 broadcast along an axis of length [M]. *)
Definition broadcast_vec (M : nat) (e : tensor float) : list float :=
  match shape e with
  | [E] => if E =? 1 then replicate M (nth 0 (data e) zero) else data e
  | _ => []
  end.

(** Modelled from the spec: the contract of the mask-span sampler, "a
    boolean array of the requested shape". *)
Definition sampler_shape_contract {rng}
    (compute_mask : mask_request -> rng -> outcome (option (tensor bool)) * rng)
    : Prop :=
  forall req g m g',
    compute_mask req g = (Ok (Some m), g') ->
    shape m = [fst (req_shape req); snd (req_shape req)] /\ wf_tensor m.

(** Modelled from the spec: the contract of the mask-span sampler, "spans
    never extend past a row's declared valid length when one is supplied".
    [row_lens] has one length per row. *)
Definition sampler_row_lens_contract {rng}
    (compute_mask : mask_request -> rng -> outcome (option (tensor bool)) * rng)
    : Prop :=
  forall req g m g' lens,
    compute_mask req g = (Ok (Some m), g') ->
    req_row_lens req = Some lens ->
    forall r c,
      r < fst (req_shape req) -> c < snd (req_shape req) ->
      (nth r (data lens) 0 <= Z.of_nat c)%Z ->
      at2 m false r c = false.

(** The embedding a constructed masker owns: a floating vector. *)
Definition owns_embed {rng} (w : world rng) (self : Wav2Vec2Masker)
    (e : tensor float) : Prop :=
  heap w !! temporal_mask_embed self = Some (CFloat e) /\
  (exists E, shape e = [E]) /\ wf_tensor e.

(** The two requests [forward] sends to the sampler. *)
Definition temporal_request (self : Wav2Vec2Masker) (N T : nat)
    (seq_lens : option (tensor Z)) (dev : string) : mask_request :=
  {| req_shape := (N, T);
     req_span_len := temporal_span_len self;
     req_max_mask_prob := max_temporal_mask_prob self;
     req_row_lens := seq_lens;
     req_min_num_spans := 2;
     req_device := dev |}.

Definition spatial_request (self : Wav2Vec2Masker) (N M : nat)
    (dev : string) : mask_request :=
  {| req_shape := (N, M);
     req_span_len := spatial_span_len self;
     req_max_mask_prob := max_spatial_mask_prob self;
     req_row_lens := None;
     req_min_num_spans := 2;
     req_device := dev |}.

(** The masker with another [max_spatial_mask_prob]. *)
Definition with_max_spatial_mask_prob (self : Wav2Vec2Masker) (p : float)
    : Wav2Vec2Masker :=
  {| temporal_span_len := temporal_span_len self;
     max_temporal_mask_prob := max_temporal_mask_prob self;
     temporal_mask_embed := temporal_mask_embed self;
     spatial_span_len := spatial_span_len self;
     max_spatial_mask_prob := p |}.

(** Which channels of which rows the spatial mask of a call selects; no
    channel when the call made no spatial mask. *)
Definition spatial_at (osm : option (tensor bool)) (n m : nat) : bool :=
  match osm with
  | Some sm => at2 sm false n m
  | None => false
  end.

(** The masked positions of row [n] of a mask of shape (N, T), in order,
    and how many there are. *)
Definition masked_positions (mask : tensor bool) (n : nat) : list nat :=
  match shape mask with
  | [_; T] => List.filter (fun s => at2 mask false n s) (seq 0 T)
  | _ => []
  end.

Definition row_count (mask : tensor bool) (n : nat) : nat :=
  length (masked_positions mask n).

(** ** A generator and a sampler to run the module on *)

(** The powers of two 0.5, 1, 2, 4 and 8, and -0.5. *)
Definition pow2 (e : Z) : float := S754_finite false 4503599627370496 (e - 52).
Definition one_half : float := pow2 (-1).
Definition minus_one_half : float := S754_finite true 4503599627370496 (-53).

(** A generator that counts its draws and always draws 0.5. *)
Definition counting_uniform (g : nat) : float * nat := (one_half, S g).

(** A sampler that masks, in every row, the valid positions [c] with
    [c + g] even, [g] being the state of the generator, and steps the
    generator. *)
Definition striped_row_len (req : mask_request) (r : nat) : nat :=
  match req_row_lens req with
  | Some lens => Z.to_nat (nth r (data lens) 0%Z)
  | None => snd (req_shape req)
  end.

Definition striped_compute_mask (req : mask_request) (g : nat)
    : outcome (option (tensor bool)) * nat :=
  let R := fst (req_shape req) in
  let C := snd (req_shape req) in
  (Ok (Some {| shape := [R; C];
               data := map (fun i => (i mod C <? striped_row_len req (i / C))
                                     && Nat.even (i mod C + g))
                           (seq 0 (R * C));
               device := req_device req |}),
   S g).

(** A batch of shape (1, 2, 2) holding 1, 2, 4, 8, and a world with an
    embedding of two channels at reference 0 and the batch at reference 1. *)
Definition example_batch : tensor float :=
  {| shape := [1; 2; 2]; data := [pow2 0; pow2 1; pow2 2; pow2 3];
     device := "cpu" |}.

Definition example_embed : tensor float :=
  {| shape := [2]; data := [one_half; one_half]; device := "cpu" |}.

Definition example_world : world nat :=
  World [CFloat example_embed; CFloat example_batch] 0 [].

(** Maskers over [example_world]: without and with spatial masking. *)
Definition example_masker (p : float) : Wav2Vec2Masker :=
  {| temporal_span_len := 1;
     max_temporal_mask_prob := one_half;
     temporal_mask_embed := 0;
     spatial_span_len := 1;
     max_spatial_mask_prob := p |}.

(** A sampler that gives no mask ([None]) for rows that are not longer
    than a span, and the stripes of [striped_compute_mask] otherwise. *)
Definition cautious_compute_mask (req : mask_request) (g : nat)
    : outcome (option (tensor bool)) * nat :=
  if (Z.of_nat (snd (req_shape req)) <=? req_span_len req)%Z
  then (Ok None, S g)
  else striped_compute_mask req g.

(** Maskers over [example_world] with span lengths of one's choice. *)
Definition example_masker_spans (tsl ssl : Z) (p : float) : Wav2Vec2Masker :=
  {| temporal_span_len := tsl;
     max_temporal_mask_prob := one_half;
     temporal_mask_embed := 0;
     spatial_span_len := ssl;
     max_spatial_mask_prob := p |}.

(** A world whose embedding, of three channels, does not fit the batch. *)
Definition misfit_world : world nat :=
  World [CFloat {| shape := [3]; data := [one_half; one_half; one_half];
                   device := "cpu" |};
         CFloat example_batch] 0 [].

(** A batch of shape (2, 2, 1) holding 1, 2, 4, 8 at reference 0 and, at
    references 1 and 2, two masks over it: one with both True entries in
    row 0, one with a single True entry. *)
Definition ragged_world : world nat :=
  World [CFloat {| shape := [2; 2; 1];
                   data := [pow2 0; pow2 1; pow2 2; pow2 3];
                   device := "cpu" |};
         CBool {| shape := [2; 2]; data := [true; true; false; false];
                  device := "cpu" |};
         CBool {| shape := [2; 2]; data := [true; false; false; false];
                  device := "cpu" |}] 0 [].

(** A computation only ever adds to the record of sampler calls. *)
Definition appends {rng A} (m : M rng A) : Prop :=
  forall w, exists rest, requests (snd (m w)) = requests w ++ rest.

(** The state of the generator after [n] draws. *)
Definition after_draws {rng} (next_uniform : rng -> float * rng) (n : nat)
    (g : rng) : rng :=
  Nat.iter n (fun g' => snd (next_uniform g')) g.

(** * Properties of the tensor operations *)

Lemma div_mod_row (r m M : nat) :
  m < M -> (r * M + m) / M = r /\ (r * M + m) mod M = m.
Proof.
  intros Hm. split.
  - rewrite Nat.div_add_l by lia. rewrite Nat.div_small by lia. lia.
  - rewrite Nat.add_comm, Nat.Div0.mod_add. apply Nat.mod_small; lia.
Qed.

Lemma index2_lt (R C r c : nat) : r < R -> c < C -> r * C + c < R * C.
Proof. intros. nia. Qed.

Lemma index3_lt (N T M n s m : nat) :
  n < N -> s < T -> m < M -> (n * T + s) * M + m < N * (T * M).
Proof.
  intros Hn Hs Hm. pose proof (index2_lt N T n s Hn Hs).
  pose proof (index2_lt (N * T) M (n * T + s) m H Hm). lia.
Qed.

Lemma expand_index_vec (E K M i : nat) :
  expand_index [E] [K; M] i = if E =? 1 then 0 else i mod M.
Proof. unfold expand_index; simpl. lia. Qed.

Lemma is_expandable_to_vec (E K M : nat) :
  is_expandable_to [E] [K; M] = (E =? M) || (E =? 1).
Proof. unfold is_expandable_to; simpl. by rewrite andb_true_r. Qed.

Lemma nth_imap {A} (f : nat -> A -> A) (l : list A) (i : nat) (d : A) :
  i < length l -> nth i (imap f l) d = f i (nth i l d).
Proof.
  intros Hi. rewrite !nth_lookup, list_lookup_imap.
  destruct (lookup_lt_is_Some_2 l i Hi) as [x ->]. done.
Qed.

Lemma numel1 (M : nat) : numel [M] = M.
Proof. unfold numel; simpl. lia. Qed.

Lemma numel2 (R C : nat) : numel [R; C] = R * C.
Proof. unfold numel; simpl. lia. Qed.

Lemma numel3 (N T M : nat) : numel [N; T; M] = N * (T * M).
Proof. unfold numel; simpl. lia. Qed.

Lemma nth_broadcast_vec (M E m : nat) (e : tensor float) (d d' : float) :
  shape e = [E] -> wf_tensor e -> E = M \/ E = 1 -> m < M ->
  nth (if E =? 1 then 0 else m) (data e) d' = nth m (broadcast_vec M e) d.
Proof.
  unfold wf_tensor, broadcast_vec. intros -> Hwf HE Hm.
  rewrite numel1 in Hwf.
  destruct (Nat.eqb_spec E 1) as [->|Hne].
  - rewrite (nth_lookup (replicate _ _)), lookup_replicate_2 by done.
    simpl. apply nth_indep. lia.
  - apply nth_indep. lia.
Qed.

Lemma length_broadcast_vec (M E : nat) (e : tensor float) :
  shape e = [E] -> wf_tensor e -> E = M \/ E = 1 ->
  length (broadcast_vec M e) = M.
Proof.
  unfold wf_tensor, broadcast_vec. intros -> Hwf HE.
  rewrite numel1 in Hwf.
  destruct (Nat.eqb_spec E 1); [by rewrite length_replicate | lia].
Qed.

(** [x[mask] = e] for a batch, a mask over its first two axes and a
    vector: shape and device stay, masked positions take the broadcast
    vector, the others keep their value. *)
Lemma setitem_mask_vec (x x' : tensor float) (mask : tensor bool)
    (e : tensor float) (N T M E : nat) :
  shape x = [N; T; M] -> wf_tensor x ->
  shape mask = [N; T] ->
  shape e = [E] -> wf_tensor e ->
  setitem_mask x mask e = Ok x' ->
  shape x' = [N; T; M] /\ wf_tensor x' /\ device x' = device x /\
  (E = M \/ E = 1) /\
  forall n s m d, n < N -> s < T -> m < M ->
    at3 x' d n s m =
      if at2 mask false n s then nth m (broadcast_vec M e) d
      else at3 x d n s m.
Proof.
  intros Hx Hwf Hm He Hwfe. unfold setitem_mask.
  rewrite Hx, Hm, He. simpl.
  destruct (decide _) as [_|Hne]; [|done].
  rewrite is_expandable_to_vec.
  destruct (_ || _) eqn:Hexp; [|done].
  intros [= <-]. simpl.
  assert (HE : E = M \/ E = 1).
  { apply orb_true_iff in Hexp as [H%Nat.eqb_eq|H%Nat.eqb_eq]; auto. }
  unfold wf_tensor in *. simpl. rewrite length_imap.
  repeat split; try done; [by rewrite Hwf, Hx|].
  intros n s m d Hn Hs Hm'.
  unfold at3, at2; simpl. rewrite Hx, Hm, numel1.
  rewrite nth_imap by (rewrite Hwf, Hx, numel3; by apply index3_lt).
  destruct (div_mod_row (n * T + s) m M Hm') as [-> Hmod].
  destruct (nth (n * T + s) (data mask) false); [|done].
  rewrite expand_index_vec, Hmod.
  rewrite (Nat.add_comm _ m), Nat.Div0.mod_add, Nat.mod_small by done.
  by apply nth_broadcast_vec with (E := E).
Qed.

(** [x[mask] = c] for a batch, a mask of the batch's shape and a scalar. *)
Lemma setitem_mask_scalar_full (x x' : tensor float) (mask : tensor bool)
    (c : float) (N T M : nat) :
  shape x = [N; T; M] -> wf_tensor x ->
  shape mask = [N; T; M] ->
  setitem_mask_scalar x mask c = Ok x' ->
  shape x' = [N; T; M] /\ wf_tensor x' /\ device x' = device x /\
  forall n s m d, n < N -> s < T -> m < M ->
    at3 x' d n s m = if at3 mask false n s m then c else at3 x d n s m.
Proof.
  intros Hx Hwf Hm. unfold setitem_mask_scalar, setitem_mask.
  rewrite Hx, Hm. simpl.
  destruct (decide _) as [_|Hne]; [|done].
  intros [= <-]. unfold wf_tensor in *. simpl. rewrite length_imap.
  repeat split; try done; [by rewrite Hwf, Hx|].
  intros n s m d Hn Hs Hm'.
  unfold at3; simpl. rewrite Hx, Hm.
  rewrite nth_imap by (rewrite Hwf, Hx, numel3; by apply index3_lt).
  assert (Hdiv : forall a, fst (Nat.divmod a 0 0 0) = a)
    by (intros a; apply (Nat.div_1_r a)).
  rewrite Hdiv. by destruct (nth _ (data mask) false).
Qed.

Lemma expand_index_unsqueezed (N T M n s m : nat) :
  n < N -> s < T -> m < M ->
  expand_index [N; 1; M] [N; T; M] ((n * T + s) * M + m) = n * M + m.
Proof.
  intros Hn Hs Hm. unfold expand_index. simpl.
  destruct (div_mod_row (n * T + s) m M Hm) as [-> ->].
  destruct (div_mod_row n s T Hs) as [-> _].
  rewrite (Nat.mod_small n N) by done.
  destruct (Nat.eqb_spec M 1), (Nat.eqb_spec N 1); lia.
Qed.

(** [sm.unsqueeze(1).expand(-1, T, -1)] repeats a mask of shape (N, M)
    along a new middle axis of length [T]. *)
Lemma expand_unsqueeze (sm sm1 sm2 : tensor bool) (N T M : nat) :
  shape sm = [N; M] ->
  unsqueeze 1 sm = Ok sm1 ->
  expand sm1 [-1; Z.of_nat T; -1]%Z = Ok sm2 ->
  shape sm2 = [N; T; M] /\
  forall n s m, n < N -> s < T -> m < M ->
    at3 sm2 false n s m = at2 sm false n m.
Proof.
  intros Hsm. unfold unsqueeze. rewrite Hsm. simpl.
  intros [= <-]. unfold expand. simpl.
  destruct (Z.eqb_spec (Z.of_nat T) (-1)) as [Hneg|_]; [lia|].
  destruct (Z.leb_spec 0 (Z.of_nat T)) as [_|Hneg]; [|lia].
  rewrite orb_true_r. simpl. rewrite Nat2Z.id.
  intros [= <-]. split; [done|].
  intros n s m Hn Hs Hm. unfold at3, at2. simpl. rewrite Hsm.
  pose proof (index3_lt N T M n s m Hn Hs Hm) as Hlt.
  rewrite <- numel3 in Hlt.
  set (f := fun i => nth (expand_index [N; 1; M] [N; T; M] i) (data sm) false).
  rewrite (nth_indep _ false (f 0)) by (by rewrite length_map, length_seq).
  rewrite map_nth, seq_nth by done. unfold f. simpl.
  by rewrite expand_index_unsqueezed.
Qed.

(** A feature vector has [M] channels, the elements [at3] reads. *)
Lemma length_feature {A} (t : tensor A) (N T M n s : nat) :
  shape t = [N; T; M] -> wf_tensor t -> n < N -> s < T ->
  length (feature t n s) = M.
Proof.
  unfold wf_tensor, feature, slice. intros -> Hwf Hn Hs.
  rewrite numel3 in Hwf.
  rewrite length_take, length_drop, Hwf.
  pose proof (index2_lt N T n s Hn Hs). nia.
Qed.

Lemma nth_feature {A} (t : tensor A) (N T M n s m : nat) (d : A) :
  shape t = [N; T; M] -> m < M ->
  nth m (feature t n s) d = at3 t d n s m.
Proof.
  unfold feature, at3, slice. intros -> Hm.
  by rewrite !nth_lookup, lookup_take_lt, lookup_drop.
Qed.

Lemma feature_ext (t : tensor float) (v : list float) (N T M n s : nat) :
  shape t = [N; T; M] -> wf_tensor t -> n < N -> s < T ->
  length v = M ->
  (forall m, m < M -> at3 t zero n s m = nth m v zero) ->
  feature t n s = v.
Proof.
  intros Ht Hwf Hn Hs Hv Hall.
  apply (nth_ext _ _ zero zero).
  - by rewrite (length_feature t N T M), Hv.
  - intros m Hm. rewrite (length_feature t N T M) in Hm by done.
    rewrite (nth_feature t N T M) by done. by apply Hall.
Qed.

(** * Properties of the masker *)

Section Runs.
Context {rng : Type}.
Variable next_uniform : rng -> float * rng.
Variable compute_mask :
  mask_request -> rng -> outcome (option (tensor bool)) * rng.

(** ** Inversion of the steps of a computation *)

Lemma bind_Ok_inv {A B} (m : M rng A) (k : A -> M rng B) w b w' :
  bind m k w = (Ok b, w') ->
  exists a w1, m w = (Ok a, w1) /\ k a w1 = (Ok b, w').
Proof. unfold bind. destruct (m w) as [[a|e] w1]; [eauto | done]. Qed.

Lemma ret_inv {A} (a b : A) (w w' : world rng) :
  ret a w = (Ok b, w') -> b = a /\ w' = w.
Proof. by intros [= -> ->]. Qed.

Lemma lift_inv {A} (o : outcome A) (a : A) (w w' : world rng) :
  lift o w = (Ok a, w') -> o = Ok a /\ w' = w.
Proof. by intros [= -> ->]. Qed.

Lemma load_inv (l : loc) (c : cell) (w w' : world rng) :
  load l w = (Ok c, w') -> heap w !! l = Some c /\ w' = w.
Proof. unfold load. destruct (heap w !! l); by intros [= -> ->]. Qed.

Lemma load_float_inv (l : loc) (t : tensor float) (w w' : world rng) :
  load_float l w = (Ok t, w') -> heap w !! l = Some (CFloat t) /\ w' = w.
Proof.
  unfold load_float. intros (c & w1 & [Hc ->]%load_inv & H)%bind_Ok_inv.
  destruct c; [by apply ret_inv in H as [-> ->] | done].
Qed.

Lemma load_mask_inv (l : loc) (t : tensor bool) (w w' : world rng) :
  load_mask l w = (Ok t, w') -> heap w !! l = Some (CBool t) /\ w' = w.
Proof.
  unfold load_mask. intros (c & w1 & [Hc ->]%load_inv & H)%bind_Ok_inv.
  destruct c; [done | by apply ret_inv in H as [-> ->]].
Qed.

Lemma unpack3_inv (s : list nat) (a b c : nat) (w w' : world rng) :
  unpack3 s w = (Ok (a, b, c), w') -> s = [a; b; c] /\ w' = w.
Proof.
  destruct s as [|a' [|b' [|c' [|? ?]]]]; try done.
  by intros [= -> -> -> ->].
Qed.

Lemma alloc_inv (c : cell) (l : loc) (w w' : world rng) :
  alloc c w = (Ok l, w') ->
  l = length (heap w) /\ w' = World (heap w ++ [c]) (gen w) (requests w).
Proof. by intros [= <- <-]. Qed.

Lemma call_compute_mask_inv req r (w w' : world rng) :
  call_compute_mask compute_mask req w = (Ok r, w') ->
  exists g, compute_mask req (gen w) = (Ok r, g) /\
            w' = World (heap w) g (requests w ++ [req]).
Proof.
  unfold call_compute_mask.
  destruct (compute_mask req (gen w)) as [o g]. intros [= -> <-]. eauto.
Qed.

Lemma setitem_inv (l : loc) mask value (w w' : world rng) :
  setitem l mask value w = (Ok tt, w') ->
  exists x x', heap w !! l = Some (CFloat x) /\
               setitem_mask x mask value = Ok x' /\
               w' = World (<[l := CFloat x']> (heap w)) (gen w) (requests w).
Proof.
  unfold setitem.
  intros (x & w1 & [Hx ->]%load_float_inv & H)%bind_Ok_inv.
  apply bind_Ok_inv in H as (x' & w1 & [Hset ->]%lift_inv & H).
  injection H as <-. eauto.
Qed.

Lemma setitem_scalar_inv (l : loc) mask c (w w' : world rng) :
  setitem_scalar l mask c w = (Ok tt, w') ->
  exists x x', heap w !! l = Some (CFloat x) /\
               setitem_mask_scalar x mask c = Ok x' /\
               w' = World (<[l := CFloat x']> (heap w)) (gen w) (requests w).
Proof.
  unfold setitem_scalar.
  intros (x & w1 & [Hx ->]%load_float_inv & H)%bind_Ok_inv.
  apply bind_Ok_inv in H as (x' & w1 & [Hset ->]%lift_inv & H).
  injection H as <-. eauto.
Qed.

(** ** What a returning call of [forward] has done *)

Lemma forward_inv self seqs seq_lens (w w' : world rng) out tmask :
  forward compute_mask self seqs seq_lens w = (Ok (out, tmask), w') ->
  exists x N T M tm g1 e x1,
    heap w !! seqs = Some (CFloat x) /\ shape x = [N; T; M] /\
    compute_mask (temporal_request self N T seq_lens (device x)) (gen w)
      = (Ok (Some tm), g1) /\
    heap w !! temporal_mask_embed self = Some (CFloat e) /\
    setitem_mask x tm e = Ok x1 /\
    out = seqs /\ tmask = length (heap w) /\
    ((float_gt (max_spatial_mask_prob self) zero = false /\
      w' = World (<[seqs := CFloat x1]> (heap w ++ [CBool tm])) g1
             (requests w ++ [temporal_request self N T seq_lens (device x)]))
     \/
     (float_gt (max_spatial_mask_prob self) zero = true /\
      exists sm g2 sm1 sm2 x2,
        compute_mask (spatial_request self N M (device x)) g1
          = (Ok (Some sm), g2) /\
        unsqueeze 1 sm = Ok sm1 /\
        expand sm1 [-1; Z.of_nat T; -1]%Z = Ok sm2 /\
        setitem_mask_scalar x1 sm2 zero = Ok x2 /\
        w' = World (<[seqs := CFloat x2]> (heap w ++ [CBool tm])) g2
               (requests w ++ [temporal_request self N T seq_lens (device x);
                               spatial_request self N M (device x)]))).
Proof.
  intros H. unfold forward in H.
  apply bind_Ok_inv in H as (c & w1 & [Hc ->]%load_inv & H).
  apply bind_Ok_inv in H as ([[N T] M] & w1 & [Hshape ->]%unpack3_inv & H).
  apply bind_Ok_inv in H as (otm & w1 & (g1 & Hcm & ->)%call_compute_mask_inv & H).
  destruct otm as [tm|]; [|done].
  apply bind_Ok_inv in H as (tl & w1 & [-> ->]%alloc_inv & H).
  apply bind_Ok_inv in H as (e & w1 & [He ->]%load_float_inv & H).
  apply bind_Ok_inv in H as ([] & w1 & (x & x1 & Hx & Hset & ->)%setitem_inv & H).
  apply bind_Ok_inv in H as ([] & w2 & Hsp & [[= <- <-] ->]%ret_inv).
  simpl in He, Hx.
  pose proof (lookup_lt_Some _ _ _ Hc) as Hlt.
  rewrite lookup_app_l in Hx by done.
  assert (c = CFloat x) as -> by congruence. simpl in Hshape, Hcm.
  assert (heap w !! temporal_mask_embed self = Some (CFloat e)) as He'.
  { destruct (decide (temporal_mask_embed self < length (heap w))) as [?|Hge].
    - by rewrite lookup_app_l in He.
    - rewrite lookup_app_r in He by lia.
      by destruct (temporal_mask_embed self - length (heap w)) as [|[|?]]. }
  exists x, N, T, M, tm, g1, e, x1.
  repeat (split; [done|]).
  destruct (float_gt (max_spatial_mask_prob self) zero) eqn:Hgt.
  - right. split; [done|].
    apply bind_Ok_inv in Hsp as (osm & w1 & (g2 & Hcm2 & ->)%call_compute_mask_inv & H).
    destruct osm as [sm|]; [|done].
    apply bind_Ok_inv in H as (sm1 & w1 & [Hsm1 ->]%lift_inv & H).
    apply bind_Ok_inv in H as (sm2 & w1 & [Hsm2 ->]%lift_inv & H).
    apply setitem_scalar_inv in H as (y & x2 & Hy & Hset2 & ->).
    simpl in Hy, Hcm2 |- *.
    rewrite list_lookup_insert_eq in Hy
      by (rewrite length_app; simpl; lia).
    injection Hy as <-.
    exists sm, g2, sm1, sm2, x2. repeat (split; [done|]).
    by rewrite list_insert_insert_eq, <- app_assoc.
  - left. split; [done|]. by apply ret_inv in Hsp as [_ ->].
Qed.

End Runs.

Section Forward.
Context {rng : Type}.
Variable compute_mask :
  mask_request -> rng -> outcome (option (tensor bool)) * rng.

Lemma float_eq_zero_not_gt (p : float) :
  float_eq p zero = true -> float_gt p zero = false.
Proof. by destruct p as [[]|[]| |[] ? ?]. Qed.

Lemma lookup_new_object (h : list cell) (l : loc) (c c' : cell) :
  l < length h -> <[l := c]> (h ++ [c']) !! length h = Some c'.
Proof.
  intros Hl. rewrite list_lookup_insert_ne by lia.
  by rewrite lookup_app_r, Nat.sub_diag by lia.
Qed.

Lemma lookup_written_object (h : list cell) (l : loc) (c c' : cell) :
  l < length h -> <[l := c]> (h ++ [c']) !! l = Some c.
Proof.
  intros Hl. apply list_lookup_insert_eq. rewrite length_app. lia.
Qed.

Lemma lookup_other_object (h : list cell) (l l' : loc) (c c' : cell) :
  l' < length h -> l' <> l -> <[l := c]> (h ++ [c']) !! l' = h !! l'.
Proof.
  intros Hl Hne. rewrite list_lookup_insert_ne by done.
  by apply lookup_app_l.
Qed.

(** The values a returning call leaves in the batch, position by
    position: the spatial zeroing comes last and wins, then the temporal
    overwrite, then the old value. *)
Lemma forward_values self seqs seq_lens (w w' : world rng) out tmask x e :
  sampler_shape_contract compute_mask ->
  heap w !! seqs = Some (CFloat x) -> wf_tensor x ->
  owns_embed w self e ->
  forward compute_mask self seqs seq_lens w = (Ok (out, tmask), w') ->
  exists N T M tm g1 x' osm,
    shape x = [N; T; M] /\ out = seqs /\ tmask = length (heap w) /\
    compute_mask (temporal_request self N T seq_lens (device x)) (gen w)
      = (Ok (Some tm), g1) /\
    shape tm = [N; T] /\ wf_tensor tm /\
    heap w' = <[seqs := CFloat x']> (heap w ++ [CBool tm]) /\
    shape x' = [N; T; M] /\ wf_tensor x' /\
    length (broadcast_vec M e) = M /\
    match osm with
    | None =>
        float_gt (max_spatial_mask_prob self) zero = false /\
        requests w' =
          requests w ++ [temporal_request self N T seq_lens (device x)]
    | Some sm =>
        float_gt (max_spatial_mask_prob self) zero = true /\
        (exists g2, compute_mask (spatial_request self N M (device x)) g1
                      = (Ok (Some sm), g2)) /\
        shape sm = [N; M] /\
        requests w' =
          requests w ++ [temporal_request self N T seq_lens (device x);
                         spatial_request self N M (device x)]
    end /\
    forall n s m d, n < N -> s < T -> m < M ->
      at3 x' d n s m =
        if spatial_at osm n m then zero
        else if at2 tm false n s then nth m (broadcast_vec M e) d
        else at3 x d n s m.
Proof.
  intros Hcontract Hx Hwf (He & [E HE] & Hwfe) Hrun.
  apply forward_inv in Hrun
    as (x0 & N & T & M & tm & g1 & e0 & x1 & Hx0 & Hshape & Hcm & He0
        & Hset & -> & -> & Hrest).
  assert (x0 = x) as -> by congruence.
  assert (e0 = e) as -> by congruence.
  destruct (Hcontract _ _ _ _ Hcm) as [Htm Hwftm]. simpl in Htm.
  destruct (setitem_mask_vec x x1 tm e N T M E Hshape Hwf Htm HE Hwfe Hset)
    as (Hshape1 & Hwf1 & Hdev1 & HEM & Hat1).
  pose proof (length_broadcast_vec M E e HE Hwfe HEM) as Hlen.
  destruct Hrest as [[Hgt ->]|[Hgt (sm & g2 & sm1 & sm2 & x2 & Hcm2 & Hsm1
                                   & Hsm2 & Hset2 & ->)]].
  - exists N, T, M, tm, g1, x1, None. simpl. by repeat (split; [done|]).
  - destruct (Hcontract _ _ _ _ Hcm2) as [Hsm _]. simpl in Hsm.
    destruct (expand_unsqueeze sm sm1 sm2 N T M Hsm Hsm1 Hsm2)
      as [Hshape_sm2 Hat_sm2].
    destruct (setitem_mask_scalar_full x1 x2 sm2 zero N T M
                Hshape1 Hwf1 Hshape_sm2 Hset2)
      as (Hshape2 & Hwf2 & _ & Hat2).
    exists N, T, M, tm, g1, x2, (Some sm). simpl.
    repeat (split; [by eauto|]).
    intros n s m d Hn Hs Hm.
    rewrite Hat2, Hat_sm2 by done.
    destruct (at2 sm false n m); [done|]. by apply Hat1.
Qed.

End Forward.

Section Construction.
Context {rng : Type}.
Variable next_uniform : rng -> float * rng.

Lemma length_draws (n : nat) (g : rng) :
  length (fst (draws next_uniform n g)) = n.
Proof.
  revert g. induction n as [|n IH]; intros g; [done|].
  simpl. destruct (next_uniform g) as [x g1].
  specialize (IH g1). destruct (draws next_uniform n g1) as [xs g2].
  simpl in *. by rewrite IH.
Qed.

Lemma insert_new_object (h : list cell) (c c' : cell) :
  <[length h := c]> (h ++ [c']) = h ++ [c].
Proof.
  rewrite insert_app_r_alt by lia. by rewrite Nat.sub_diag.
Qed.

Lemma uniform_Ok (l : loc) (t : tensor float) (w : world rng) :
  heap w !! l = Some (CFloat t) ->
  uniform_ next_uniform l w =
    (Ok tt,
     World (<[l := CFloat {| shape := shape t;
                             data := fst (draws next_uniform
                                            (length (data t)) (gen w));
                             device := device t |}]> (heap w))
           (snd (draws next_uniform (length (data t)) (gen w)))
           (requests w)).
Proof.
  intros Hl. unfold uniform_, bind, load_float, bind, load.
  rewrite Hl. simpl.
  by destruct (draws next_uniform (length (data t)) (gen w)).
Qed.

(** A zero probability is refused before anything is allocated. *)
Lemma init_Raise model_dim tsl tp ssl sp dev (w : world rng) :
  float_eq tp zero = true ->
  __init__ next_uniform model_dim tsl tp ssl sp dev w =
    (Raise (ValueError "`max_temporal_mask_prob` must be greater than 0."), w).
Proof. unfold __init__. by intros ->. Qed.

(** Any other probability is accepted: the embedding is allocated and
    filled, and the arguments are stored as they are. *)
Lemma init_Ok model_dim tsl tp ssl sp dev (w : world rng) :
  float_eq tp zero = false -> (0 <= model_dim)%Z ->
  __init__ next_uniform model_dim tsl tp ssl sp dev w =
    (Ok (Build_Wav2Vec2Masker tsl tp (length (heap w)) ssl sp),
     World (heap w ++ [CFloat (new_embed next_uniform model_dim dev (gen w))])
           (snd (draws next_uniform (Z.to_nat model_dim) (gen w)))
           (requests w)).
Proof.
  intros Htp Hdim. unfold __init__, torch_empty. rewrite Htp.
  destruct (Z.ltb_spec model_dim 0) as [?|_]; [lia|].
  unfold bind, alloc, reset_parameters. simpl.
  erewrite uniform_Ok
    by (simpl; by rewrite lookup_app_r, Nat.sub_diag by lia).
  simpl. by rewrite length_replicate, insert_new_object.
Qed.

(** A negative model dimension is refused by the allocation. *)
Lemma init_negative_dim model_dim tsl tp ssl sp dev (w : world rng) :
  float_eq tp zero = false -> (model_dim < 0)%Z ->
  __init__ next_uniform model_dim tsl tp ssl sp dev w = (Raise RuntimeError, w).
Proof.
  intros Htp Hdim. unfold __init__, torch_empty. rewrite Htp.
  by destruct (Z.ltb_spec model_dim 0) as [_|?]; [|lia].
Qed.

Lemma init_inv model_dim tsl tp ssl sp dev (w w' : world rng) self :
  __init__ next_uniform model_dim tsl tp ssl sp dev w = (Ok self, w') ->
  float_eq tp zero = false /\ (0 <= model_dim)%Z /\
  self = Build_Wav2Vec2Masker tsl tp (length (heap w)) ssl sp /\
  owns_embed w' self (new_embed next_uniform model_dim dev (gen w)).
Proof.
  intros H.
  destruct (float_eq tp zero) eqn:Htp;
    [by rewrite init_Raise in H|].
  destruct (Z.ltb_spec model_dim 0) as [Hneg|Hdim];
    [by rewrite init_negative_dim in H|].
  rewrite init_Ok in H by done. injection H as <- <-.
  repeat split; try done.
  - simpl. by rewrite lookup_app_r, Nat.sub_diag by lia.
  - by eexists.
  - unfold wf_tensor, new_embed. simpl. by rewrite length_draws, numel1.
Qed.

End Construction.

(** ** The example generator and samplers *)

Lemma striped_shape_contract : sampler_shape_contract striped_compute_mask.
Proof.
  intros req g m g' [= <- <-]. split; [done|].
  unfold wf_tensor. simpl. by rewrite length_map, length_seq, numel2.
Qed.

Lemma striped_row_lens_contract : sampler_row_lens_contract striped_compute_mask.
Proof.
  intros req g m g' lens [= <- <-] Hlens r c Hr Hc Hle.
  unfold at2. simpl.
  set (f := fun i => (i mod snd (req_shape req)
                        <? striped_row_len req (i / snd (req_shape req)))
                     && Nat.even (i mod snd (req_shape req) + g)).
  rewrite (nth_indep _ false (f 0))
    by (rewrite length_map, length_seq; by apply index2_lt).
  rewrite map_nth, seq_nth by (by apply index2_lt). unfold f. simpl.
  destruct (div_mod_row r c _ Hc) as [-> ->].
  unfold striped_row_len. rewrite Hlens.
  destruct (Nat.ltb_spec c (Z.to_nat (nth r (data lens) 0%Z))); [lia|done].
Qed.

Lemma example_owns_embed (p : float) :
  owns_embed example_world (example_masker p) example_embed.
Proof. repeat split; [by exists 2]. Qed.

(** * The claims *)

Section Claims.
Context {rng : Type}.
Variable next_uniform : rng -> float * rng.
Variable compute_mask :
  mask_request -> rng -> outcome (option (tensor bool)) * rng.

(** C4: for a returning [forward] call on a batch of shape (N, S, M), with
    a sampler that answers with an array of the requested shape, the
    returned temporal mask is a boolean tensor of shape exactly (N, S). *)
Theorem C4_temporal_mask_shape self seqs seq_lens (w w' : world rng)
    out tmask c N T M :
  sampler_shape_contract compute_mask ->
  heap w !! seqs = Some c -> cell_shape c = [N; T; M] ->
  forward compute_mask self seqs seq_lens w = (Ok (out, tmask), w') ->
  exists tm, heap w' !! tmask = Some (CBool tm) /\ shape tm = [N; T].
Proof.
  intros Hcontract Hc Hshape Hrun.
  apply forward_inv in Hrun
    as (x & N' & T' & M' & tm & g1 & e & x1 & Hx & Hshape' & Hcm & _ & _
        & -> & -> & Hrest).
  assert (c = CFloat x) as -> by congruence. simpl in Hshape.
  assert (N' = N /\ T' = T) as [-> ->] by (split; congruence).
  destruct (Hcontract _ _ _ _ Hcm) as [Htm _]. simpl in Htm.
  pose proof (lookup_lt_Some _ _ _ Hx) as Hlt.
  exists tm. split; [|done].
  destruct Hrest as [[_ ->]|[_ (sm & g2 & sm1 & sm2 & x2 & _ & _ & _ & _ & ->)]];
    simpl; by apply lookup_new_object.
Qed.

(** C2, amended: after a returning [forward] call on a batch of shape
    (N, S, M), every position (n, s) where the returned temporal mask (the
    sampler's answer to the temporal request) is True holds the learned
    embedding, broadcast along the model axis, in every channel that the
    spatial mask of the call (the sampler's answer to the spatial request,
    asked for only when [max_spatial_mask_prob > 0]) does not select, and
    zero in the channels it selects; without spatial masking the whole
    feature vector is the embedding, which the call leaves as it was. *)
Theorem C2_masked_positions_hold_embedding self seqs seq_lens
    (w w' : world rng) out tmask x e :
  sampler_shape_contract compute_mask ->
  heap w !! seqs = Some (CFloat x) -> wf_tensor x ->
  owns_embed w self e ->
  forward compute_mask self seqs seq_lens w = (Ok (out, tmask), w') ->
  exists N T M tm g1 x' osm,
    shape x = [N; T; M] /\
    compute_mask (temporal_request self N T seq_lens (device x)) (gen w)
      = (Ok (Some tm), g1) /\
    shape tm = [N; T] /\
    heap w' !! tmask = Some (CBool tm) /\
    heap w' !! out = Some (CFloat x') /\
    heap w' !! temporal_mask_embed self = Some (CFloat e) /\
    match osm with
    | None => float_gt (max_spatial_mask_prob self) zero = false
    | Some sm =>
        float_gt (max_spatial_mask_prob self) zero = true /\
        (exists g2, compute_mask (spatial_request self N M (device x)) g1
                      = (Ok (Some sm), g2)) /\
        shape sm = [N; M]
    end /\
    forall n s, n < N -> s < T -> at2 tm false n s = true ->
      (forall m, m < M ->
         at3 x' zero n s m =
           if spatial_at osm n m then zero
           else nth m (broadcast_vec M e) zero) /\
      (osm = None -> feature x' n s = broadcast_vec M e).
Proof.
  intros Hcontract Hx Hwf Hown Hrun.
  destruct (forward_values compute_mask self seqs seq_lens w w' out tmask x e
              Hcontract Hx Hwf Hown Hrun)
    as (N & T & M & tm & g1 & x' & osm & Hshape & -> & -> & Hcm & Htm & _
        & Hheap & Hshape' & Hwf' & Hlen & Hosm & Hat).
  destruct Hown as (He & [E HE] & Hwfe).
  pose proof (lookup_lt_Some _ _ _ Hx) as Hlt.
  pose proof (lookup_lt_Some _ _ _ He) as Hlte.
  exists N, T, M, tm, g1, x', osm. rewrite Hheap.
  split; [done|]. split; [done|]. split; [done|].
  split; [by apply lookup_new_object|].
  split; [by apply lookup_written_object|].
  split.
  { rewrite lookup_other_object; [done..|]. intros Heq.
    rewrite Heq in He. congruence. }
  split.
  { destruct osm as [sm|].
    - destruct Hosm as (Hgt & Hcm2 & Hsm & _). by repeat split.
    - by destruct Hosm as [Hgt _]. }
  intros n s Hn Hs Hmasked. split.
  - intros m Hm. rewrite Hat by done. by rewrite Hmasked.
  - intros ->. apply (feature_ext x' _ N T M); try done.
    intros m Hm. rewrite Hat by done. simpl. by rewrite Hmasked.
Qed.

(** C5: for a masker whose [max_spatial_mask_prob] is 0, after a returning
    [forward] call every position (n, s) where the returned temporal mask
    is False has the feature vector it had in the input batch. *)
Theorem C5_unmasked_positions_unchanged self seqs seq_lens
    (w w' : world rng) out tmask x e :
  float_eq (max_spatial_mask_prob self) zero = true ->
  sampler_shape_contract compute_mask ->
  heap w !! seqs = Some (CFloat x) -> wf_tensor x ->
  owns_embed w self e ->
  forward compute_mask self seqs seq_lens w = (Ok (out, tmask), w') ->
  exists N T M tm x',
    shape x = [N; T; M] /\
    heap w' !! tmask = Some (CBool tm) /\
    heap w' !! out = Some (CFloat x') /\
    forall n s, n < N -> s < T -> at2 tm false n s = false ->
      feature x' n s = feature x n s.
Proof.
  intros Hzero Hcontract Hx Hwf Hown Hrun.
  apply float_eq_zero_not_gt in Hzero.
  destruct (forward_values compute_mask self seqs seq_lens w w' out tmask x e
              Hcontract Hx Hwf Hown Hrun)
    as (N & T & M & tm & g1 & x' & osm & Hshape & -> & -> & _ & Htm & _
        & Hheap & Hshape' & Hwf' & Hlen & Hosm & Hat).
  destruct osm as [sm|]; [destruct Hosm; congruence|].
  pose proof (lookup_lt_Some _ _ _ Hx) as Hlt.
  exists N, T, M, tm, x'. rewrite Hheap.
  split; [done|]. split; [by apply lookup_new_object|].
  split; [by apply lookup_written_object|].
  intros n s Hn Hs Hfree.
  apply (feature_ext x' _ N T M); try done.
  - by apply (length_feature x N T M).
  - intros m Hm. rewrite Hat by done. simpl. rewrite Hfree.
    by rewrite (nth_feature x N T M).
Qed.

(** C6: for a masker with [max_spatial_mask_prob > 0], a returning
    [forward] call asks the sampler, after the temporal mask, for a spatial
    mask of shape (N, M); that mask applies to every time step alike, every
    position it selects ends exactly zero, also where the temporal mask
    had just written the embedding, and the other positions keep the
    result of the temporal overwrite. *)
Theorem C6_spatial_zeroing self seqs seq_lens (w w' : world rng)
    out tmask x e :
  float_gt (max_spatial_mask_prob self) zero = true ->
  sampler_shape_contract compute_mask ->
  heap w !! seqs = Some (CFloat x) -> wf_tensor x ->
  owns_embed w self e ->
  forward compute_mask self seqs seq_lens w = (Ok (out, tmask), w') ->
  exists N T M tm g1 sm g2 x',
    shape x = [N; T; M] /\
    compute_mask (temporal_request self N T seq_lens (device x)) (gen w)
      = (Ok (Some tm), g1) /\
    compute_mask (spatial_request self N M (device x)) g1
      = (Ok (Some sm), g2) /\
    shape sm = [N; M] /\
    requests w' =
      requests w ++ [temporal_request self N T seq_lens (device x);
                     spatial_request self N M (device x)] /\
    heap w' !! out = Some (CFloat x') /\ shape x' = [N; T; M] /\
    forall n s m, n < N -> s < T -> m < M ->
      at3 x' zero n s m =
        (if at2 sm false n m then zero
         else if at2 tm false n s then nth m (broadcast_vec M e) zero
         else at3 x zero n s m) /\
      (at2 sm false n m = true -> at2 tm false n s = true ->
       at3 x' zero n s m = zero).
Proof.
  intros Hpos Hcontract Hx Hwf Hown Hrun.
  destruct (forward_values compute_mask self seqs seq_lens w w' out tmask x e
              Hcontract Hx Hwf Hown Hrun)
    as (N & T & M & tm & g1 & x' & osm & Hshape & -> & -> & Hcm & Htm & _
        & Hheap & Hshape' & Hwf' & Hlen & Hosm & Hat).
  destruct osm as [sm|]; [|destruct Hosm; congruence].
  destruct Hosm as (_ & [g2 Hcm2] & Hsm & Hreq).
  pose proof (lookup_lt_Some _ _ _ Hx) as Hlt.
  exists N, T, M, tm, g1, sm, g2, x'.
  repeat (split; [done|]).
  split; [rewrite Hheap; by apply lookup_written_object|].
  split; [done|].
  intros n s m Hn Hs Hm. specialize (Hat n s m zero Hn Hs Hm). simpl in Hat.
  split; [done|]. intros Hs1 _. by rewrite Hat, Hs1.
Qed.

End Claims.

(** ** The record of sampler calls *)

Create HintDb appends.

Section Requests.
Context {rng : Type}.
Variable compute_mask :
  mask_request -> rng -> outcome (option (tensor bool)) * rng.

Lemma appends_ret {A} (a : A) : appends (@ret rng A a).
Proof. intros w. exists []. simpl. by rewrite app_nil_r. Qed.

Lemma appends_raise {A} (e : exn) : appends (@raise rng A e).
Proof. intros w. exists []. simpl. by rewrite app_nil_r. Qed.

Lemma appends_lift {A} (o : outcome A) : appends (@lift rng A o).
Proof. intros w. exists []. simpl. by rewrite app_nil_r. Qed.

Lemma appends_load (l : loc) : appends (@load rng l).
Proof.
  intros w. exists []. unfold load.
  destruct (heap w !! l); simpl; by rewrite app_nil_r.
Qed.

Lemma appends_store (l : loc) (c : cell) : appends (@store rng l c).
Proof. intros w. exists []. simpl. by rewrite app_nil_r. Qed.

Lemma appends_alloc (c : cell) : appends (@alloc rng c).
Proof. intros w. exists []. simpl. by rewrite app_nil_r. Qed.

Lemma appends_call (req : mask_request) :
  appends (call_compute_mask compute_mask req).
Proof.
  intros w. exists [req]. unfold call_compute_mask.
  by destruct (compute_mask req (gen w)).
Qed.

Lemma appends_bind {A B} (m : M rng A) (k : A -> M rng B) :
  appends m -> (forall a, appends (k a)) -> appends (bind m k).
Proof.
  intros Hm Hk w. unfold bind. destruct (Hm w) as [r1 H1].
  destruct (m w) as [[a|e] w1]; simpl in H1.
  - destruct (Hk a w1) as [r2 H2]. exists (r1 ++ r2).
    by rewrite H2, H1, app_assoc.
  - by exists r1.
Qed.

#[local] Hint Resolve appends_ret appends_raise appends_lift appends_load
  appends_store appends_alloc appends_call : appends.

Lemma appends_load_float (l : loc) : appends (@load_float rng l).
Proof.
  apply appends_bind; [auto with appends|]. intros []; auto with appends.
Qed.

Lemma appends_setitem (l : loc) mask value :
  appends (@setitem rng l mask value).
Proof.
  repeat (apply appends_bind;
          [solve [auto using appends_load_float with appends]|]; intros ?).
  auto with appends.
Qed.

Lemma appends_setitem_scalar (l : loc) mask c :
  appends (@setitem_scalar rng l mask c).
Proof.
  repeat (apply appends_bind;
          [solve [auto using appends_load_float with appends]|]; intros ?).
  auto with appends.
Qed.

#[local] Hint Resolve appends_load_float appends_setitem appends_setitem_scalar
  : appends.

(** The first thing [forward] does with a batch of three axes is to ask
    for the temporal mask. *)
Lemma forward_first_request self seqs seq_lens (w : world rng) c N T M :
  heap w !! seqs = Some c -> cell_shape c = [N; T; M] ->
  exists rest,
    requests (snd (forward compute_mask self seqs seq_lens w)) =
      requests w ++ temporal_request self N T seq_lens (cell_device c) :: rest.
Proof.
  intros Hc Hshape. unfold forward.
  unfold bind at 1. unfold load at 1. rewrite Hc.
  unfold bind at 1. rewrite Hshape. simpl.
  unfold bind at 1. unfold call_compute_mask at 1.
  fold (temporal_request self N T seq_lens (cell_device c)).
  destruct (compute_mask _ (gen w)) as [[otm|err] g1].
  - match goal with
    | |- context [snd (?k ?w1)] =>
        assert (Hk : appends k); [|destruct (Hk w1) as [rest Hrest]]
    end.
    { destruct otm as [tm|]; [|auto with appends].
      repeat (apply appends_bind; [solve [auto with appends]|]; intros ?).
      apply appends_bind; [|auto with appends].
      destruct (float_gt _ _); [|auto with appends].
      apply appends_bind; [auto with appends|]. intros [sm|];
        [|auto with appends].
      repeat (apply appends_bind; [solve [auto with appends]|]; intros ?).
      auto with appends. }
    exists rest. rewrite Hrest. simpl. by rewrite <- app_assoc.
  - by exists [].
Qed.

End Requests.

Section MoreClaims.
Context {rng : Type}.
Variable next_uniform : rng -> float * rng.
Variable compute_mask :
  mask_request -> rng -> outcome (option (tensor bool)) * rng.

(** C7: a [forward] call on a batch of shape (N, S, M) first asks the
    sampler for a mask of shape (N, S) with span length
    [temporal_span_len], probability [max_temporal_mask_prob], row lengths
    [seq_lens] and at least 2 spans per row; the temporal mask it returns
    is the sampler's answer to that request, so, with a sampler that keeps
    its spans within the row lengths it is given, no position at or beyond
    a row's valid length is masked. *)
Theorem C7_temporal_request self seqs seq_lens (w : world rng) c N T M :
  heap w !! seqs = Some c -> cell_shape c = [N; T; M] ->
  let treq :=
    {| req_shape := (N, T);
       req_span_len := temporal_span_len self;
       req_max_mask_prob := max_temporal_mask_prob self;
       req_row_lens := seq_lens;
       req_min_num_spans := 2;
       req_device := cell_device c |} in
  (exists rest,
     requests (snd (forward compute_mask self seqs seq_lens w)) =
       requests w ++ treq :: rest) /\
  forall out tmask w',
    forward compute_mask self seqs seq_lens w = (Ok (out, tmask), w') ->
    exists tm g1,
      compute_mask treq (gen w) = (Ok (Some tm), g1) /\
      heap w' !! tmask = Some (CBool tm) /\
      (sampler_row_lens_contract compute_mask ->
       forall lens n s,
         seq_lens = Some lens -> n < N -> s < T ->
         (nth n (data lens) 0 <= Z.of_nat s)%Z ->
         at2 tm false n s = false).
Proof.
  intros Hc Hshape treq. split.
  { by apply forward_first_request with (M := M). }
  intros out tmask w' Hrun.
  apply forward_inv in Hrun
    as (x & N' & T' & M' & tm & g1 & e & x1 & Hx & Hshape' & Hcm & _ & _
        & -> & -> & Hrest).
  assert (c = CFloat x) as -> by congruence. simpl in Hshape.
  assert (N' = N /\ T' = T) as [-> ->] by (split; congruence).
  pose proof (lookup_lt_Some _ _ _ Hx) as Hlt.
  exists tm, g1. split; [done|]. split.
  - destruct Hrest
      as [[_ ->]|[_ (sm & g2 & sm1 & sm2 & x2 & _ & _ & _ & _ & ->)]];
      simpl; by apply lookup_new_object.
  - intros Hlens lens n s -> Hn Hs Hle.
    by apply (Hlens _ _ _ _ lens Hcm).
Qed.

(** C8: a returning [forward] call writes the masked values into the
    caller's own tensor object and returns that object's reference as its
    first component; the only object it creates is the temporal mask it
    returns as second component (a spatial mask is neither returned nor
    kept), and no other object changes. *)
Theorem C8_in_place self seqs seq_lens (w w' : world rng) out tmask :
  forward compute_mask self seqs seq_lens w = (Ok (out, tmask), w') ->
  out = seqs /\
  (exists x N T M tm g1 e x1 x',
     heap w !! seqs = Some (CFloat x) /\ shape x = [N; T; M] /\
     heap w !! temporal_mask_embed self = Some (CFloat e) /\
     compute_mask (temporal_request self N T seq_lens (device x)) (gen w)
       = (Ok (Some tm), g1) /\
     heap w' !! tmask = Some (CBool tm) /\
     setitem_mask x tm e = Ok x1 /\
     (if float_gt (max_spatial_mask_prob self) zero
      then exists sm2, setitem_mask_scalar x1 sm2 zero = Ok x'
      else x' = x1) /\
     heap w' !! seqs = Some (CFloat x')) /\
  tmask = length (heap w) /\
  length (heap w') = S (length (heap w)) /\
  forall l, l < length (heap w) -> l <> seqs -> heap w' !! l = heap w !! l.
Proof.
  intros Hrun.
  apply forward_inv in Hrun
    as (x & N & T & M & tm & g1 & e & x1 & Hx & Hshape & Hcm & He & Hset
        & -> & -> & Hrest).
  pose proof (lookup_lt_Some _ _ _ Hx) as Hlt.
  split; [done|].
  destruct Hrest
    as [[Hgt ->]|[Hgt (sm & g2 & sm1 & sm2 & x2 & _ & _ & _ & Hset2 & ->)]];
    simpl.
  - split.
    { exists x, N, T, M, tm, g1, e, x1, x1. rewrite Hgt.
      repeat (split; [done|]).
      split; [by apply lookup_new_object|].
      repeat (split; [done|]). by apply lookup_written_object. }
    split; [done|]. split.
    { rewrite length_insert, length_app. simpl. lia. }
    intros l Hl Hne. by apply lookup_other_object.
  - split.
    { exists x, N, T, M, tm, g1, e, x1, x2. rewrite Hgt.
      repeat (split; [done|]).
      split; [by apply lookup_new_object|].
      split; [done|]. split; [by exists sm2|].
      by apply lookup_written_object. }
    split; [done|]. split.
    { rewrite length_insert, length_app. simpl. lia. }
    intros l Hl Hne. by apply lookup_other_object.
Qed.

Lemma float_lt_zero_not_gt (p : float) :
  float_gt zero p = true -> float_gt p zero = false.
Proof. by destruct p as [[]|[]| |[] ? ?]. Qed.

Lemma forward_without_spatial self p seqs seq_lens (w : world rng) :
  float_gt (max_spatial_mask_prob self) zero = false ->
  float_gt p zero = false ->
  forward compute_mask self seqs seq_lens w =
  forward compute_mask (with_max_spatial_mask_prob self p) seqs seq_lens w.
Proof.
  intros Hself Hp. unfold forward. simpl. by rewrite Hself, Hp.
Qed.

(** C10: with a [max_spatial_mask_prob] below 0 (and arguments the
    constructor accepts otherwise: a [max_temporal_mask_prob] other than 0
    and a [model_dim] of at least 0) construction succeeds, exactly as it
    does with 0, and every [forward] call of the masker behaves as that of
    the masker built with 0: in particular it asks for one mask only, the
    temporal one. *)
Theorem C10_negative_spatial_prob model_dim tsl tp ssl p dev (w : world rng) :
  float_gt zero p = true ->
  float_eq tp zero = false -> (0 <= model_dim)%Z ->
  exists self w',
    __init__ next_uniform model_dim tsl tp ssl p dev w = (Ok self, w') /\
    max_spatial_mask_prob self = p /\
    __init__ next_uniform model_dim tsl tp ssl zero dev w =
      (Ok (with_max_spatial_mask_prob self zero), w') /\
    forall seqs seq_lens (w0 : world rng),
      forward compute_mask self seqs seq_lens w0 =
        forward compute_mask (with_max_spatial_mask_prob self zero)
          seqs seq_lens w0 /\
      forall out tmask w1,
        forward compute_mask self seqs seq_lens w0 = (Ok (out, tmask), w1) ->
        exists req, requests w1 = requests w0 ++ [req].
Proof.
  intros Hneg Htp Hdim. apply float_lt_zero_not_gt in Hneg.
  eexists _, _. split; [by apply init_Ok|].
  split; [done|]. split; [by rewrite init_Ok|].
  intros seqs seq_lens w0. split.
  { by apply forward_without_spatial. }
  intros out tmask w1 Hrun.
  apply forward_inv in Hrun
    as (x & N & T & M & tm & g1 & e & x1 & _ & _ & _ & _ & _ & _ & _ & Hrest).
  simpl in Hrest. rewrite Hneg in Hrest.
  destruct Hrest as [[_ ->]|[? _]]; [|done]. by eexists.
Qed.

(** C9, amended: the constructor does not look at the span lengths; with
    arguments it accepts otherwise (a [max_temporal_mask_prob] other than 0
    and a [model_dim] of at least 0) it succeeds for every
    [temporal_span_len] and [spatial_span_len], zero and negative ones
    included, and the masker holds them as they were given. *)
Theorem C9_span_lens_stored model_dim tsl tp ssl sp dev (w : world rng) :
  float_eq tp zero = false -> (0 <= model_dim)%Z ->
  exists self w',
    __init__ next_uniform model_dim tsl tp ssl sp dev w = (Ok self, w') /\
    temporal_span_len self = tsl /\ spatial_span_len self = ssl.
Proof.
  intros Htp Hdim. eexists _, _. split; [by apply init_Ok|]. done.
Qed.

End MoreClaims.

(** C9, as stated, fails: a masker constructed with span lengths 0 and -3
    holds them. *)
Lemma C9_counterexample :
  exists self w',
    __init__ counting_uniform 2 0 one_half (-3) zero None (World [] 0 [])
      = (Ok self, w') /\
    ~ ((0 < temporal_span_len self)%Z /\ (0 < spatial_span_len self)%Z).
Proof.
  eexists _, _. split; [vm_compute; reflexivity|]. simpl. lia.
Qed.

(** C1 at -0.5: the constructor accepts a negative
    [max_temporal_mask_prob], although its message asks for a value
    greater than 0; only a value equal to 0 is refused. *)
Theorem C1_negative_prob_accepted :
  float_gt minus_one_half zero = false /\
  (exists self w',
     __init__ counting_uniform 2 10 minus_one_half 10 zero None
       (World [] 0 []) = (Ok self, w') /\
     max_temporal_mask_prob self = minus_one_half) /\
  __init__ counting_uniform 2 10 zero 10 zero None (World [] 0 []) =
    (Raise (ValueError "`max_temporal_mask_prob` must be greater than 0."),
     World [] 0 []).
Proof.
  split; [done|]. split; [|done].
  eexists _, _. split; [vm_compute; reflexivity|done].
Qed.

(** ** Gathering the masked positions *)

Lemma take_drop_flat_map {A B} (f : A -> list B) (K : nat) (l : list A)
    (i : nat) (d : A) :
  Forall (fun a => length (f a) = K) l -> i < length l ->
  take K (drop (i * K) (flat_map f l)) = f (nth i l d).
Proof.
  intros Hall. revert i. induction Hall as [|a l Ha Hall IH]; intros i Hi.
  - simpl in Hi. lia.
  - destruct i as [|i]; simpl.
    + rewrite drop_0. by apply take_app_length'.
    + rewrite drop_app_add' by done. apply IH. simpl in Hi. lia.
Qed.

Lemma nth_take_drop {A} (l : list A) (K a k : nat) (d : A) :
  k < K -> nth k (take K (drop a l)) d = nth (a + k) l d.
Proof. intros Hk. by rewrite !nth_lookup, lookup_take_lt, lookup_drop. Qed.

Lemma filter_seq_shift (p : nat -> bool) (a T : nat) :
  List.filter p (seq a T) =
  map (Nat.add a) (List.filter (fun s => p (a + s)) (seq 0 T)).
Proof.
  induction T as [|T IH]; [done|].
  rewrite !seq_S, !List.filter_app, map_app, IH. simpl.
  by destruct (p (a + T)).
Qed.

Lemma filter_seq_rows (p : nat -> bool) (N T : nat) :
  List.filter p (seq 0 (N * T)) =
  flat_map (fun n => map (Nat.add (n * T))
                         (List.filter (fun s => p (n * T + s)) (seq 0 T)))
           (seq 0 N).
Proof.
  induction N as [|N IH]; [done|].
  rewrite seq_S, flat_map_app. simpl. rewrite app_nil_r.
  replace (T + N * T) with (N * T + T) by lia.
  by rewrite seq_app, List.filter_app, IH, filter_seq_shift.
Qed.

Lemma masked_positions_unfold (mask : tensor bool) (N T n : nat) :
  shape mask = [N; T] ->
  masked_positions mask n =
    List.filter (fun s => nth (n * T + s) (data mask) false) (seq 0 T).
Proof. unfold masked_positions, at2. by intros ->. Qed.

(** The selected rows of a mask of shape (N, T), batch row by batch row. *)
Lemma nonzero_rows (mask : tensor bool) (N T : nat) :
  shape mask = [N; T] -> wf_tensor mask ->
  nonzero (data mask) =
    flat_map (fun n => map (Nat.add (n * T)) (masked_positions mask n))
             (seq 0 N).
Proof.
  intros Hshape Hwf. unfold wf_tensor in Hwf. rewrite Hshape, numel2 in Hwf.
  unfold nonzero. rewrite Hwf, filter_seq_rows.
  apply flat_map_ext. intros n.
  by rewrite (masked_positions_unfold mask N T).
Qed.

Lemma nonzero_lt (mask : list bool) (r : nat) :
  In r (nonzero mask) -> r < length mask.
Proof.
  unfold nonzero. intros [Hin _]%filter_In. apply in_seq in Hin. lia.
Qed.

Lemma length_slice {A} (l : list A) (M R r : nat) :
  length l = R * M -> r < R -> length (slice M l r) = M.
Proof.
  intros Hl Hr. unfold slice. rewrite length_take, length_drop, Hl. nia.
Qed.

Section Gather.
Context {rng : Type}.

(** C3, amended: for a feature batch of shape (N, S, M) with N >= 1 and a
    boolean mask of shape (N, S) whose rows all have [K] True entries,
    [apply_temporal_mask] returns a new tensor of shape (N, K, M), the batch
    dimension kept and the masked positions of each row along one axis,
    that holds exactly the masked feature vectors in their order; both
    inputs are left as they were. *)
Theorem C3_apply_temporal_mask (w : world rng) (xl ml : loc)
    (x : tensor float) (mask : tensor bool) (N T M K : nat) :
  heap w !! xl = Some (CFloat x) -> heap w !! ml = Some (CBool mask) ->
  shape x = [N; T; M] -> wf_tensor x ->
  shape mask = [N; T] -> wf_tensor mask ->
  0 < N -> (forall n, n < N -> row_count mask n = K) ->
  exists r w',
    apply_temporal_mask xl ml w = (Ok (length (heap w)), w') /\
    heap w' = heap w ++ [CFloat r] /\
    heap w' !! xl = Some (CFloat x) /\ heap w' !! ml = Some (CBool mask) /\
    shape r = [N; K; M] /\ wf_tensor r /\
    forall n k, n < N -> k < K ->
      feature r n k = feature x n (nth k (masked_positions mask n) 0).
Proof.
  intros Hx Hm Hshape Hwf Hmshape Hmwf HN Hcount.
  pose proof (nonzero_rows mask N T Hmshape Hmwf) as Hrows.
  assert (Hblocks : Forall (fun n => length (map (Nat.add (n * T))
                                             (masked_positions mask n)) = K)
                           (seq 0 N)).
  { apply Forall_forall. intros n Hn%elem_of_seq. rewrite length_map.
    apply Hcount. lia. }
  assert (Hlen : length (nonzero (data mask)) = N * K).
  { rewrite Hrows. rewrite (flat_map_constant_length (c := K)).
    - by rewrite length_seq.
    - intros n Hn%list_elem_of_In.
      by apply (proj1 (Forall_forall _ _) Hblocks). }
  unfold wf_tensor in Hwf, Hmwf.
  rewrite Hshape, numel3 in Hwf. rewrite Hmshape, numel2 in Hmwf.
  assert (Hslices : Forall (fun r => length (slice M (data x) r) = M)
                           (nonzero (data mask))).
  { apply Forall_forall. intros r Hr%list_elem_of_In%nonzero_lt.
    apply (length_slice _ M (N * T)); lia. }
  set (r := {| shape := [N; K; M];
               data := flat_map (slice M (data x)) (nonzero (data mask));
               device := device x |}).
  exists r, (World (heap w ++ [CFloat r]) (gen w) (requests w)).
  split.
  { unfold apply_temporal_mask, bind, load_mask, bind, load.
    rewrite Hx, Hm. simpl.
    unfold getitem_mask, size0, unflatten0.
    rewrite Hshape, Hmshape. simpl.
    destruct (decide _) as [_|?]; [|done]. simpl.
    destruct (Nat.eqb_spec N 0) as [?|_]; [lia|].
    rewrite Hlen, numel1, (Nat.mul_comm N K), Nat.Div0.mod_mul.
    simpl. by rewrite Nat.div_mul by lia. }
  simpl. split; [done|].
  split; [by apply lookup_app_l_Some|].
  split; [by apply lookup_app_l_Some|].
  split; [done|]. split.
  { unfold wf_tensor. simpl. rewrite numel3.
    rewrite (flat_map_constant_length (c := M)).
    - rewrite Hlen. lia.
    - intros a Ha%list_elem_of_In.
      by apply (proj1 (Forall_forall _ _) Hslices). }
  intros n k Hn Hk. unfold feature. simpl. rewrite Hshape.
  unfold slice at 1.
  rewrite (take_drop_flat_map _ M _ _ 0 Hslices)
    by (rewrite Hlen; by apply index2_lt).
  f_equal.
  rewrite <- (nth_take_drop _ K (n * K) k 0 Hk), Hrows.
  rewrite (take_drop_flat_map _ K _ _ 0 Hblocks) by (by rewrite length_seq).
  rewrite seq_nth by done. simpl.
  rewrite (nth_indep _ 0 (n * T + 0))
    by (rewrite length_map; fold (row_count mask n); by rewrite (Hcount n Hn)).
  by rewrite map_nth.
Qed.

End Gather.

(** C3, as stated, fails on an empty batch: every row of the mask has the
    same count, there being none, and the call raises. *)
Lemma C3_counterexample :
  let x := {| shape := [0; 2; 1]; data := []; device := "cpu" |} in
  let mask := {| shape := [0; 2]; data := []; device := "cpu" |} in
  let w := World [CFloat x; CBool mask] 0 [] in
  wf_tensor x /\ wf_tensor mask /\
  apply_temporal_mask 0 1 w = (Raise RuntimeError, w).
Proof. by vm_compute. Qed.

(** * The claims on the example world *)

(** C2, as stated, fails with spatial masking: position (0, 0) is masked
    by the temporal mask, channel 1 by the spatial mask, and the feature
    vector ends as (0.5, 0), not as the embedding (0.5, 0.5). *)
Lemma C2_counterexample :
  exists w' tm x',
    forward striped_compute_mask (example_masker one_half) 1 None example_world
      = (Ok (1, 2), w') /\
    heap w' !! 2 = Some (CBool tm) /\
    heap w' !! 1 = Some (CFloat x') /\
    heap w' !! 0 = Some (CFloat example_embed) /\
    at2 tm false 0 0 = true /\
    feature x' 0 0 = [one_half; zero] /\
    feature x' 0 0 <> broadcast_vec 2 example_embed.
Proof.
  eexists _, _, _. split; [vm_compute; reflexivity|].
  repeat (split; [reflexivity|]). by vm_compute.
Qed.

Lemma C4_witness :
  exists tm,
    heap (snd (forward striped_compute_mask (example_masker zero) 1 None
                 example_world)) !! 2 = Some (CBool tm) /\
    shape tm = [1; 2].
Proof.
  apply (C4_temporal_mask_shape striped_compute_mask (example_masker zero)
           1 None example_world _ 1 2 (CFloat example_batch) 1 2 2
           striped_shape_contract);
    vm_compute; reflexivity.
Defined.

Lemma C2_witness :
  exists N T M tm g1 x' osm,
    shape example_batch = [N; T; M] /\
    striped_compute_mask
      (temporal_request (example_masker one_half) N T None
         (device example_batch)) (gen example_world) = (Ok (Some tm), g1) /\
    shape tm = [N; T] /\
    heap (snd (forward striped_compute_mask (example_masker one_half) 1 None
                 example_world)) !! 2 = Some (CBool tm) /\
    heap (snd (forward striped_compute_mask (example_masker one_half) 1 None
                 example_world)) !! 1 = Some (CFloat x') /\
    heap (snd (forward striped_compute_mask (example_masker one_half) 1 None
                 example_world)) !! temporal_mask_embed (example_masker one_half)
      = Some (CFloat example_embed) /\
    match osm with
    | None => float_gt (max_spatial_mask_prob (example_masker one_half)) zero
                = false
    | Some sm =>
        float_gt (max_spatial_mask_prob (example_masker one_half)) zero = true /\
        (exists g2,
           striped_compute_mask
             (spatial_request (example_masker one_half) N M
                (device example_batch)) g1 = (Ok (Some sm), g2)) /\
        shape sm = [N; M]
    end /\
    forall n s, n < N -> s < T -> at2 tm false n s = true ->
      (forall m, m < M ->
         at3 x' zero n s m =
           if spatial_at osm n m then zero
           else nth m (broadcast_vec M example_embed) zero) /\
      (osm = None -> feature x' n s = broadcast_vec M example_embed).
Proof.
  apply (C2_masked_positions_hold_embedding striped_compute_mask
           (example_masker one_half) 1 None example_world _ 1 2
           example_batch example_embed striped_shape_contract);
    [reflexivity | reflexivity | apply example_owns_embed
    | vm_compute; reflexivity].
Defined.

Lemma C5_witness :
  exists N T M tm x',
    shape example_batch = [N; T; M] /\
    heap (snd (forward striped_compute_mask (example_masker zero) 1 None
                 example_world)) !! 2 = Some (CBool tm) /\
    heap (snd (forward striped_compute_mask (example_masker zero) 1 None
                 example_world)) !! 1 = Some (CFloat x') /\
    forall n s, n < N -> s < T -> at2 tm false n s = false ->
      feature x' n s = feature example_batch n s.
Proof.
  apply (C5_unmasked_positions_unchanged striped_compute_mask
           (example_masker zero) 1 None example_world _ 1 2
           example_batch example_embed);
    [reflexivity | apply striped_shape_contract | reflexivity | reflexivity
    | apply example_owns_embed | vm_compute; reflexivity].
Defined.

Lemma C6_witness :
  exists N T M tm g1 sm g2 x',
    shape example_batch = [N; T; M] /\
    striped_compute_mask
      (temporal_request (example_masker one_half) N T None
         (device example_batch)) (gen example_world) = (Ok (Some tm), g1) /\
    striped_compute_mask
      (spatial_request (example_masker one_half) N M (device example_batch)) g1
      = (Ok (Some sm), g2) /\
    shape sm = [N; M] /\
    requests (snd (forward striped_compute_mask (example_masker one_half) 1
                     None example_world)) =
      requests example_world ++
        [temporal_request (example_masker one_half) N T None
           (device example_batch);
         spatial_request (example_masker one_half) N M (device example_batch)] /\
    heap (snd (forward striped_compute_mask (example_masker one_half) 1 None
                 example_world)) !! 1 = Some (CFloat x') /\
    shape x' = [N; T; M] /\
    forall n s m, n < N -> s < T -> m < M ->
      at3 x' zero n s m =
        (if at2 sm false n m then zero
         else if at2 tm false n s
              then nth m (broadcast_vec M example_embed) zero
              else at3 example_batch zero n s m) /\
      (at2 sm false n m = true -> at2 tm false n s = true ->
       at3 x' zero n s m = zero).
Proof.
  apply (C6_spatial_zeroing striped_compute_mask (example_masker one_half)
           1 None example_world _ 1 2 example_batch example_embed);
    [reflexivity | apply striped_shape_contract | reflexivity | reflexivity
    | apply example_owns_embed | vm_compute; reflexivity].
Defined.

Lemma C7_witness :
  exists rest,
    requests (snd (forward striped_compute_mask (example_masker zero) 1
                     (Some {| shape := [1]; data := [1%Z]; device := "cpu" |})
                     example_world)) =
      requests example_world ++
        {| req_shape := (1, 2);
           req_span_len := 1;
           req_max_mask_prob := one_half;
           req_row_lens :=
             Some {| shape := [1]; data := [1%Z]; device := "cpu" |};
           req_min_num_spans := 2;
           req_device := "cpu" |} :: rest.
Proof.
  apply (C7_temporal_request striped_compute_mask (example_masker zero) 1
           (Some {| shape := [1]; data := [1%Z]; device := "cpu" |})
           example_world (CFloat example_batch) 1 2 2);
    reflexivity.
Defined.

Lemma C8_witness :
  1 = 1 /\
  heap (snd (forward striped_compute_mask (example_masker one_half) 1 None
               example_world)) !! 1 <> heap example_world !! 1 /\
  length (heap (snd (forward striped_compute_mask (example_masker one_half) 1
                       None example_world))) = 3.
Proof.
  destruct (C8_in_place striped_compute_mask (example_masker one_half) 1 None
              example_world
              (snd (forward striped_compute_mask (example_masker one_half) 1
                      None example_world)) 1 2)
    as (Hout & _ & _ & Hlen & _); [vm_compute; reflexivity|].
  split; [exact Hout|]. split; [by vm_compute | exact Hlen].
Defined.

Lemma C10_witness :
  exists self w',
    __init__ counting_uniform 2 10 one_half 10 minus_one_half None
      (World [] 0 []) = (Ok self, w') /\
    max_spatial_mask_prob self = minus_one_half /\
    __init__ counting_uniform 2 10 one_half 10 zero None (World [] 0 []) =
      (Ok (with_max_spatial_mask_prob self zero), w') /\
    forall seqs seq_lens (w0 : world nat),
      forward striped_compute_mask self seqs seq_lens w0 =
        forward striped_compute_mask (with_max_spatial_mask_prob self zero)
          seqs seq_lens w0 /\
      forall out tmask w1,
        forward striped_compute_mask self seqs seq_lens w0
          = (Ok (out, tmask), w1) ->
        exists req, requests w1 = requests w0 ++ [req].
Proof.
  apply (C10_negative_spatial_prob counting_uniform striped_compute_mask
           2 10 one_half 10 minus_one_half None (World [] 0 []));
    [reflexivity | reflexivity | lia].
Defined.

Lemma C9_witness :
  exists self w',
    __init__ counting_uniform 2 0 one_half (-3) zero None (World [] 0 [])
      = (Ok self, w') /\
    temporal_span_len self = 0%Z /\ spatial_span_len self = (-3)%Z.
Proof.
  apply (C9_span_lens_stored counting_uniform 2 0 one_half (-3) zero None
           (World [] 0 []));
    [reflexivity | lia].
Defined.

Lemma C3_witness :
  let mask := {| shape := [1; 2]; data := [false; true]; device := "cpu" |} in
  let w := World [CFloat example_embed; CFloat example_batch; CBool mask] 0 [] in
  exists r w',
    apply_temporal_mask 1 2 w = (Ok (length (heap w)), w') /\
    heap w' = heap w ++ [CFloat r] /\
    heap w' !! 1 = Some (CFloat example_batch) /\
    heap w' !! 2 = Some (CBool mask) /\
    shape r = [1; 1; 2] /\ wf_tensor r /\
    forall n k, n < 1 -> k < 1 ->
      feature r n k = feature example_batch n (nth k (masked_positions mask n) 0).
Proof.
  intros mask w.
  apply (C3_apply_temporal_mask w 1 2 example_batch mask 1 2 2 1);
    [reflexivity | reflexivity | reflexivity | reflexivity | reflexivity
    | reflexivity | lia |].
  intros n Hn. assert (n = 0) as -> by lia. reflexivity.
Defined.

(** * Further properties of the constructor *)

Section ConstructionMore.
Context {rng : Type}.
Variable next_uniform : rng -> float * rng.

Lemma float_eq_zero_iff (p : float) :
  float_eq p zero = true <-> exists s, p = S754_zero s.
Proof.
  split.
  - destruct p as [s|s| |s m e]; intros H.
    + by exists s.
    + by destruct s.
    + done.
    + by destruct s.
  - by intros [s ->].
Qed.

Lemma snd_draws (n : nat) (g : rng) :
  snd (draws next_uniform n g) = after_draws next_uniform n g.
Proof.
  unfold after_draws. revert g. induction n as [|n IH]; intros g; [done|].
  rewrite Nat.iter_succ_r. simpl.
  destruct (next_uniform g) as [x g1] eqn:Hg. specialize (IH g1).
  destruct (draws next_uniform n g1) as [xs g2]. simpl in *. by rewrite IH.
Qed.

Lemma nth_draws (n i : nat) (g : rng) (d : float) :
  i < n ->
  nth i (fst (draws next_uniform n g)) d =
    fst (next_uniform (after_draws next_uniform i g)).
Proof.
  unfold after_draws. revert i g. induction n as [|n IH]; intros i g Hi; [lia|].
  simpl. destruct (next_uniform g) as [x g1] eqn:Hg.
  destruct (draws next_uniform n g1) as [xs g2] eqn:Hd. simpl.
  destruct i as [|i]; [simpl; by rewrite Hg|].
  rewrite Nat.iter_succ_r, Hg. simpl.
  specialize (IH i g1 ltac:(lia)). by rewrite Hd in IH.
Qed.

(** The constructor refuses a [max_temporal_mask_prob] of 0.0 or -0.0
    with ValueError before it looks at any other argument, and then it has
    allocated nothing and drawn nothing; so does no construction return
    with a zero probability, nor with a negative [model_dim], which the
    allocation refuses. *)
Theorem init_refusals model_dim tsl tp ssl sp dev (w : world rng) :
  ((exists s, tp = S754_zero s) ->
   __init__ next_uniform model_dim tsl tp ssl sp dev w =
     (Raise (ValueError "`max_temporal_mask_prob` must be greater than 0."),
      w)) /\
  forall self w',
    __init__ next_uniform model_dim tsl tp ssl sp dev w = (Ok self, w') ->
    (forall s, tp <> S754_zero s) /\ (0 <= model_dim)%Z.
Proof.
  split.
  - intros Hz%float_eq_zero_iff. by apply init_Raise.
  - intros self w' H.
    destruct (init_inv next_uniform _ _ _ _ _ _ _ _ _ H) as (Htp & Hdim & _).
    split; [|done]. intros s ->. by destruct s.
Qed.

(** A successful construction makes one object, the embedding: a floating
    vector of [model_dim] elements on the requested device (the default
    device when none is given) whose i-th element is the i-th draw of the
    generator; the generator has made [model_dim] draws, the objects there
    were are untouched and no mask has been asked for. *)
Theorem init_allocates_embedding model_dim tsl tp ssl sp dev
    (w w' : world rng) self :
  __init__ next_uniform model_dim tsl tp ssl sp dev w = (Ok self, w') ->
  temporal_mask_embed self = length (heap w) /\
  max_temporal_mask_prob self = tp /\ max_spatial_mask_prob self = sp /\
  exists e,
    heap w' = heap w ++ [CFloat e] /\
    shape e = [Z.to_nat model_dim] /\
    length (data e) = Z.to_nat model_dim /\
    device e = default default_device dev /\
    (forall i d, i < Z.to_nat model_dim ->
       nth i (data e) d =
         fst (next_uniform (after_draws next_uniform i (gen w)))) /\
    gen w' = after_draws next_uniform (Z.to_nat model_dim) (gen w) /\
    requests w' = requests w.
Proof.
  intros H.
  destruct (init_inv next_uniform _ _ _ _ _ _ _ _ _ H) as (Htp & Hdim & -> & _).
  rewrite init_Ok in H by done. injection H as <-.
  repeat (split; [done|]).
  exists (new_embed next_uniform model_dim dev (gen w)). simpl.
  repeat (split; [done|]).
  split; [by rewrite length_draws|]. split; [done|].
  split; [|by rewrite snd_draws].
  intros i d Hi. by apply nth_draws.
Qed.

(** [reset_parameters] on a masker that owns its embedding draws every
    element of the embedding anew, in place: shape, length and device
    stay, the masker still owns an embedding, the generator has made one
    draw per element, and nothing else changes. *)
Theorem reset_parameters_redraws self (w : world rng) e :
  owns_embed w self e ->
  exists e' w',
    reset_parameters next_uniform self w = (Ok tt, w') /\
    owns_embed w' self e' /\
    shape e' = shape e /\ device e' = device e /\
    length (data e') = length (data e) /\
    (forall i d, i < length (data e) ->
       nth i (data e') d =
         fst (next_uniform (after_draws next_uniform i (gen w)))) /\
    gen w' = after_draws next_uniform (length (data e)) (gen w) /\
    length (heap w') = length (heap w) /\
    (forall l, l <> temporal_mask_embed self -> heap w' !! l = heap w !! l) /\
    requests w' = requests w.
Proof.
  intros (He & HE & Hwf).
  pose proof (lookup_lt_Some _ _ _ He) as Hlt.
  eexists _, _. unfold reset_parameters.
  split; [by apply uniform_Ok|]. simpl.
  split.
  { repeat split; simpl.
    - by apply list_lookup_insert_eq.
    - done.
    - unfold wf_tensor in *. simpl. by rewrite length_draws. }
  repeat (split; [done|]). simpl.
  split; [by rewrite length_draws|].
  split; [intros i d Hi; by apply nth_draws|].
  split; [by rewrite snd_draws|].
  split; [by rewrite length_insert|].
  split; [|done]. intros l Hl. by apply list_lookup_insert_ne.
Qed.

End ConstructionMore.

(** * Further properties of [forward] *)

Lemma setitem_mask_same_layout (x x' : tensor float) (mask : tensor bool)
    (value : tensor float) :
  setitem_mask x mask value = Ok x' ->
  shape x' = shape x /\ device x' = device x /\
  length (data x') = length (data x).
Proof.
  unfold setitem_mask. destruct (decide _); [|done].
  destruct (is_expandable_to _ _); [|done].
  intros [= <-]. simpl. by rewrite length_imap.
Qed.

Lemma setitem_mask_vec_Ok (x : tensor float) (mask : tensor bool)
    (e : tensor float) (N T M E : nat) :
  shape x = [N; T; M] -> shape mask = [N; T] -> shape e = [E] ->
  E = M \/ E = 1 ->
  exists x1, setitem_mask x mask e = Ok x1.
Proof.
  intros Hx Hm He HE. unfold setitem_mask. rewrite Hx, Hm, He. simpl.
  destruct (decide _) as [_|?]; [|done].
  rewrite is_expandable_to_vec.
  assert ((E =? M) || (E =? 1) = true) as ->; [|by eexists].
  apply orb_true_iff. destruct HE as [->| ->];
    [left|right]; by apply Nat.eqb_refl.
Qed.

Lemma setitem_mask_vec_mismatch (x : tensor float) (mask : tensor bool)
    (e : tensor float) (N T M E : nat) :
  shape x = [N; T; M] -> shape mask = [N; T] -> shape e = [E] ->
  E <> M -> E <> 1 ->
  setitem_mask x mask e = Raise RuntimeError.
Proof.
  intros Hx Hm He HM H1. unfold setitem_mask. rewrite Hx, Hm, He. simpl.
  destruct (decide _) as [_|?]; [|done].
  rewrite is_expandable_to_vec.
  destruct (Nat.eqb_spec E M), (Nat.eqb_spec E 1); done.
Qed.

Section ForwardMore.
Context {rng : Type}.
Variable compute_mask :
  mask_request -> rng -> outcome (option (tensor bool)) * rng.

(** The run of [forward] up to the temporal overwrite, for a sampler that
    answers the temporal request with a mask. *)
Lemma forward_temporal_step self seqs seq_lens (w : world rng) x N T M tm g1 e :
  heap w !! seqs = Some (CFloat x) -> shape x = [N; T; M] ->
  heap w !! temporal_mask_embed self = Some (CFloat e) ->
  compute_mask (temporal_request self N T seq_lens (device x)) (gen w)
    = (Ok (Some tm), g1) ->
  forward compute_mask self seqs seq_lens w =
    match setitem_mask x tm e with
    | Raise err =>
        (Raise err,
         World (heap w ++ [CBool tm]) g1
           (requests w ++ [temporal_request self N T seq_lens (device x)]))
    | Ok x1 =>
        let w1 :=
          World (<[seqs := CFloat x1]> (heap w ++ [CBool tm])) g1
            (requests w ++ [temporal_request self N T seq_lens (device x)]) in
        if float_gt (max_spatial_mask_prob self) zero then
          match compute_mask (spatial_request self N M (device x)) g1 with
          | (Ok (Some sm), g2) =>
              let w2 :=
                World (heap w1) g2
                  (requests w1 ++ [spatial_request self N M (device x)]) in
              match unsqueeze 1 sm with
              | Raise err => (Raise err, w2)
              | Ok sm1 =>
                  match expand sm1 [-1; Z.of_nat T; -1]%Z with
                  | Raise err => (Raise err, w2)
                  | Ok sm2 =>
                      match setitem_mask_scalar x1 sm2 zero with
                      | Raise err => (Raise err, w2)
                      | Ok x2 =>
                          (Ok (seqs, length (heap w)),
                           World (<[seqs := CFloat x2]> (heap w1)) g2
                             (requests w2))
                      end
                  end
              end
          | (Ok None, g2) =>
              (Raise AssertionError,
               World (heap w1) g2
                 (requests w1 ++ [spatial_request self N M (device x)]))
          | (Raise err, g2) =>
              (Raise err,
               World (heap w1) g2
                 (requests w1 ++ [spatial_request self N M (device x)]))
          end
        else (Ok (seqs, length (heap w)), w1)
    end.
Proof.
  intros Hx Hshape He Hcm.
  pose proof (lookup_lt_Some _ _ _ Hx) as Hlt.
  pose proof (lookup_lt_Some _ _ _ He) as Hlte.
  unfold forward, temporal_request, spatial_request in *.
  unfold bind at 1. unfold load at 1. rewrite Hx. simpl.
  unfold bind at 1. rewrite Hshape. simpl.
  unfold bind at 1. unfold call_compute_mask at 1. simpl. rewrite Hcm.
  unfold bind at 1. simpl.
  unfold bind at 1. unfold load_float at 1, bind at 1, load at 1. simpl.
  rewrite lookup_app_l, He by done. simpl.
  unfold bind at 1. unfold setitem at 1, bind at 1, load_float at 1,
    bind at 1, load at 1. simpl.
  rewrite lookup_app_l, Hx by done. simpl.
  unfold bind at 1, lift at 1.
  destruct (setitem_mask x tm e) as [x1|err]; [|done]. simpl.
  unfold bind at 1.
  destruct (float_gt (max_spatial_mask_prob self) zero); [|done].
  unfold bind at 1. unfold call_compute_mask at 1. simpl.
  destruct (compute_mask _ g1) as [[[sm|]|err] g2]; [|done|done].
  unfold bind at 1, lift at 1.
  destruct (unsqueeze 1 sm) as [sm1|err]; [|done].
  unfold bind at 1, lift at 1.
  destruct (expand sm1 _) as [sm2|err]; [|done].
  unfold setitem_scalar, bind at 1, load_float at 1, bind at 1, load at 1.
  simpl. rewrite list_lookup_insert_eq by (rewrite length_app; simpl; lia).
  simpl. unfold bind at 1, lift at 1.
  destruct (setitem_mask_scalar x1 sm2 zero) as [x2|err]; done.
Qed.

End ForwardMore.

Section ForwardErrors.
Context {rng : Type}.
Variable compute_mask :
  mask_request -> rng -> outcome (option (tensor bool)) * rng.

(** A batch that does not have exactly three axes makes [forward] raise
    ValueError at once: the sampler is not called and nothing is written. *)
Theorem forward_needs_three_axes self seqs seq_lens (w : world rng) c :
  heap w !! seqs = Some c -> length (cell_shape c) <> 3 ->
  exists msg,
    forward compute_mask self seqs seq_lens w = (Raise (ValueError msg), w).
Proof.
  intros Hc Hlen. unfold forward.
  unfold bind at 1. unfold load at 1. rewrite Hc.
  unfold bind at 1.
  destruct (cell_shape c) as [|a [|b [|d [|? ?]]]];
    try (by destruct Hlen); by eexists.
Qed.

(** When the sampler gives no temporal mask, [forward] raises (the failed
    assertion for [None], the sampler's own exception otherwise) after that
    single request, and every tensor, the batch included, is as it was. *)
Theorem forward_without_temporal_mask self seqs seq_lens (w : world rng)
    c N T M r g1 :
  heap w !! seqs = Some c -> cell_shape c = [N; T; M] ->
  compute_mask (temporal_request self N T seq_lens (cell_device c)) (gen w)
    = (r, g1) ->
  (forall tm, r <> Ok (Some tm)) ->
  forward compute_mask self seqs seq_lens w =
    (Raise (match r with Raise e => e | Ok _ => AssertionError end),
     World (heap w) g1
       (requests w ++ [temporal_request self N T seq_lens (cell_device c)])).
Proof.
  intros Hc Hshape Hcm Hr. unfold forward, temporal_request in *.
  unfold bind at 1. unfold load at 1. rewrite Hc.
  unfold bind at 1. rewrite Hshape. simpl.
  unfold bind at 1. unfold call_compute_mask at 1. simpl. rewrite Hcm.
  destruct r as [[tm|]|e]; [by destruct (Hr tm)|done|done].
Qed.

(** [forward] is not atomic: when, with spatial masking on, the sampler
    gives no spatial mask, the call raises with the temporal overwrite
    already made in the caller's batch. *)
Theorem forward_spatial_failure_keeps_temporal_write self seqs seq_lens
    (w : world rng) x e N T M E tm g1 r g2 :
  sampler_shape_contract compute_mask ->
  heap w !! seqs = Some (CFloat x) -> shape x = [N; T; M] -> wf_tensor x ->
  heap w !! temporal_mask_embed self = Some (CFloat e) ->
  shape e = [E] -> wf_tensor e -> E = M \/ E = 1 ->
  float_gt (max_spatial_mask_prob self) zero = true ->
  compute_mask (temporal_request self N T seq_lens (device x)) (gen w)
    = (Ok (Some tm), g1) ->
  compute_mask (spatial_request self N M (device x)) g1 = (r, g2) ->
  (forall sm, r <> Ok (Some sm)) ->
  exists x1 w',
    forward compute_mask self seqs seq_lens w =
      (Raise (match r with Raise err => err | Ok _ => AssertionError end), w') /\
    heap w' !! seqs = Some (CFloat x1) /\
    shape x1 = [N; T; M] /\
    forall n s m d, n < N -> s < T -> m < M ->
      at3 x1 d n s m =
        if at2 tm false n s then nth m (broadcast_vec M e) d
        else at3 x d n s m.
Proof.
  intros Hcontract Hx Hshape Hwf He HE Hwfe HEM Hgt Hcm Hcm2 Hr.
  destruct (Hcontract _ _ _ _ Hcm) as [Htm _]. simpl in Htm.
  destruct (setitem_mask_vec_Ok x tm e N T M E Hshape Htm HE HEM) as [x1 Hset].
  destruct (setitem_mask_vec x x1 tm e N T M E Hshape Hwf Htm HE Hwfe Hset)
    as (Hshape1 & _ & _ & _ & Hat).
  pose proof (lookup_lt_Some _ _ _ Hx) as Hlt.
  exists x1. eexists.
  rewrite (forward_temporal_step compute_mask self seqs seq_lens w x N T M
             tm g1 e Hx Hshape He Hcm).
  rewrite Hset, Hgt. simpl. rewrite Hcm2.
  destruct r as [[sm|]|err]; [by destruct (Hr sm)| |];
    (split; [reflexivity|]); simpl;
    (split; [by apply lookup_written_object|done]).
Qed.

(** An embedding whose length is neither the batch's model dimension nor 1
    cannot be broadcast: [forward] raises RuntimeError after the temporal
    request and the batch is as it was. *)
Theorem forward_dimension_mismatch self seqs seq_lens (w : world rng)
    x e N T M E tm g1 :
  sampler_shape_contract compute_mask ->
  heap w !! seqs = Some (CFloat x) -> shape x = [N; T; M] ->
  heap w !! temporal_mask_embed self = Some (CFloat e) ->
  shape e = [E] -> E <> M -> E <> 1 ->
  compute_mask (temporal_request self N T seq_lens (device x)) (gen w)
    = (Ok (Some tm), g1) ->
  exists w',
    forward compute_mask self seqs seq_lens w = (Raise RuntimeError, w') /\
    heap w' !! seqs = Some (CFloat x) /\
    requests w' =
      requests w ++ [temporal_request self N T seq_lens (device x)].
Proof.
  intros Hcontract Hx Hshape He HE HM H1 Hcm.
  destruct (Hcontract _ _ _ _ Hcm) as [Htm _]. simpl in Htm.
  pose proof (lookup_lt_Some _ _ _ Hx) as Hlt.
  eexists.
  rewrite (forward_temporal_step compute_mask self seqs seq_lens w x N T M
             tm g1 e Hx Hshape He Hcm).
  rewrite (setitem_mask_vec_mismatch x tm e N T M E) by done.
  split; [reflexivity|]. simpl. split; [by rewrite lookup_app_l|done].
Qed.

(** A returning [forward] leaves the batch with the shape, the device and
    the number of elements it had: the result has the shape of the input. *)
Theorem forward_keeps_layout self seqs seq_lens (w w' : world rng) out tmask :
  forward compute_mask self seqs seq_lens w = (Ok (out, tmask), w') ->
  exists x x',
    heap w !! seqs = Some (CFloat x) /\
    heap w' !! out = Some (CFloat x') /\
    shape x' = shape x /\ device x' = device x /\
    length (data x') = length (data x) /\
    (wf_tensor x -> wf_tensor x').
Proof.
  intros Hrun.
  apply forward_inv in Hrun
    as (x & N & T & M & tm & g1 & e & x1 & Hx & Hshape & Hcm & He & Hset
        & -> & -> & Hrest).
  pose proof (lookup_lt_Some _ _ _ Hx) as Hlt.
  destruct (setitem_mask_same_layout _ _ _ _ Hset) as (Hs1 & Hd1 & Hl1).
  destruct Hrest
    as [[_ ->]|[_ (sm & g2 & sm1 & sm2 & x2 & _ & _ & _ & Hset2 & ->)]];
    simpl.
  - exists x, x1. split; [done|].
    split; [by apply lookup_written_object|].
    repeat (split; [done|]). unfold wf_tensor. by rewrite Hl1, Hs1.
  - destruct (setitem_mask_same_layout _ _ _ _ Hset2) as (Hs2 & Hd2 & Hl2).
    exists x, x2. split; [done|].
    split; [by apply lookup_written_object|].
    split; [by rewrite Hs2|]. split; [by rewrite Hd2|].
    split; [by rewrite Hl2|]. unfold wf_tensor. by rewrite Hl2, Hl1, Hs2, Hs1.
Qed.

End ForwardErrors.

(** ** Masking the same batch again *)

Section Repeated.
Context {rng : Type}.
Variable compute_mask :
  mask_request -> rng -> outcome (option (tensor bool)) * rng.

(** Two returning [forward] calls on the same batch, without spatial
    masking: the first mask is still there, and a position holds the
    embedding when either mask selects it and its input value otherwise. *)
Theorem forward_twice_accumulates self seqs lens1 lens2
    (w w1 w2 : world rng) out1 tmask1 out2 tmask2 x e :
  float_gt (max_spatial_mask_prob self) zero = false ->
  sampler_shape_contract compute_mask ->
  heap w !! seqs = Some (CFloat x) -> wf_tensor x ->
  owns_embed w self e ->
  forward compute_mask self seqs lens1 w = (Ok (out1, tmask1), w1) ->
  forward compute_mask self seqs lens2 w1 = (Ok (out2, tmask2), w2) ->
  exists N T M tm1 tm2 x2,
    shape x = [N; T; M] /\
    heap w2 !! tmask1 = Some (CBool tm1) /\
    heap w2 !! tmask2 = Some (CBool tm2) /\
    tmask1 <> tmask2 /\
    heap w2 !! seqs = Some (CFloat x2) /\
    forall n s, n < N -> s < T ->
      feature x2 n s =
        if at2 tm1 false n s || at2 tm2 false n s
        then broadcast_vec M e else feature x n s.
Proof.
  intros Hoff Hcontract Hx Hwf Hown Hrun1 Hrun2.
  destruct (forward_values compute_mask self seqs lens1 w w1 out1 tmask1 x e
              Hcontract Hx Hwf Hown Hrun1)
    as (N & T & M & tm1 & g1 & x1 & osm1 & Hshape & -> & -> & _ & Htm1 & _
        & Hheap1 & Hshape1 & Hwf1 & Hlen & Hosm1 & Hat1).
  destruct osm1 as [sm|]; [destruct Hosm1; congruence|].
  pose proof (lookup_lt_Some _ _ _ Hx) as Hlt.
  destruct Hown as (He & [E HE] & Hwfe).
  pose proof (lookup_lt_Some _ _ _ He) as Hlte.
  assert (Hne : temporal_mask_embed self <> seqs).
  { intros Heq. rewrite Heq in He. congruence. }
  assert (Hx1 : heap w1 !! seqs = Some (CFloat x1)).
  { rewrite Hheap1. by apply lookup_written_object. }
  assert (Hown1 : owns_embed w1 self e).
  { repeat split; [|by exists E|done].
    rewrite Hheap1. by rewrite lookup_other_object. }
  destruct (forward_values compute_mask self seqs lens2 w1 w2 out2 tmask2 x1 e
              Hcontract Hx1 Hwf1 Hown1 Hrun2)
    as (N' & T' & M' & tm2 & g2 & x2 & osm2 & Hshape1' & -> & -> & _ & Htm2
        & _ & Hheap2 & Hshape2 & Hwf2 & _ & Hosm2 & Hat2).
  destruct osm2 as [sm|]; [destruct Hosm2; congruence|].
  rewrite Hshape1 in Hshape1'. injection Hshape1' as <- <- <-.
  assert (Hlen1 : length (heap w1) = S (length (heap w))).
  { rewrite Hheap1, length_insert, length_app. simpl. lia. }
  exists N, T, M, tm1, tm2, x2. split; [done|].
  split.
  { rewrite Hheap2, lookup_other_object by lia.
    rewrite Hheap1. by apply lookup_new_object. }
  split; [rewrite Hheap2; apply lookup_new_object; lia|].
  split; [lia|].
  split; [rewrite Hheap2; apply lookup_written_object; lia|].
  intros n s Hn Hs.
  destruct (at2 tm1 false n s || at2 tm2 false n s) eqn:Hor.
  - apply (feature_ext x2 _ N T M); try done.
    intros m Hm. rewrite Hat2, Hat1 by done. simpl.
    destruct (at2 tm2 false n s); [done|].
    by destruct (at2 tm1 false n s).
  - apply orb_false_iff in Hor as [Hf1 Hf2].
    apply (feature_ext x2 _ N T M); try done.
    + by apply (length_feature x N T M).
    + intros m Hm. rewrite Hat2, Hat1 by done. simpl.
      rewrite Hf1, Hf2. by rewrite (nth_feature x N T M).
Qed.

End Repeated.

(** * Further properties of [apply_temporal_mask] *)

Lemma length_nonzero (mask : list bool) :
  length (nonzero mask) = count_true mask.
Proof.
  unfold nonzero, count_true.
  induction mask as [|b mask IH] using rev_ind; [done|].
  replace (length (mask ++ [b])) with (S (length mask))
    by (rewrite length_app; simpl; lia).
  rewrite seq_S, !List.filter_app, !length_app. simpl.
  rewrite nth_middle.
  rewrite (filter_ext_in _ (fun r => nth r mask false)).
  - rewrite IH. by destruct b.
  - intros r Hr%in_seq. apply app_nth1. lia.
Qed.

Lemma masked_positions_nth (mask : tensor bool) (N T n k : nat) :
  shape mask = [N; T] -> k < row_count mask n ->
  nth k (masked_positions mask n) 0 < T /\
  at2 mask false n (nth k (masked_positions mask n) 0) = true.
Proof.
  intros Hshape Hk. unfold row_count in Hk.
  pose proof (nth_In (masked_positions mask n) 0 Hk) as Hin.
  unfold masked_positions in Hin at 2. rewrite Hshape in Hin.
  apply filter_In in Hin as [Hin%in_seq Htrue]. split; [lia|done].
Qed.

(** With [K] True entries in every row, the True positions of the whole
    mask are those of row 0, then those of row 1, and so on. *)
Lemma nonzero_equal_rows (mask : tensor bool) (N T K : nat) :
  shape mask = [N; T] -> wf_tensor mask ->
  (forall n, n < N -> row_count mask n = K) ->
  length (nonzero (data mask)) = N * K /\
  forall n k, n < N -> k < K ->
    nth (n * K + k) (nonzero (data mask)) 0 =
      n * T + nth k (masked_positions mask n) 0.
Proof.
  intros Hshape Hwf Hcount.
  pose proof (nonzero_rows mask N T Hshape Hwf) as Hrows.
  assert (Hblocks : Forall (fun n => length (map (Nat.add (n * T))
                                             (masked_positions mask n)) = K)
                           (seq 0 N)).
  { apply Forall_forall. intros n Hn%elem_of_seq. rewrite length_map.
    apply Hcount. lia. }
  split.
  { rewrite Hrows. rewrite (flat_map_constant_length (c := K)).
    - by rewrite length_seq.
    - intros n Hn%list_elem_of_In.
      by apply (proj1 (Forall_forall _ _) Hblocks). }
  intros n k Hn Hk.
  rewrite <- (nth_take_drop _ K (n * K) k 0 Hk), Hrows.
  rewrite (take_drop_flat_map _ K _ _ 0 Hblocks) by (by rewrite length_seq).
  rewrite seq_nth by done. simpl.
  rewrite (nth_indep _ 0 (n * T + 0))
    by (rewrite length_map; fold (row_count mask n); by rewrite (Hcount n Hn)).
  by rewrite map_nth.
Qed.

Section GatherMore.
Context {rng : Type}.

(** The run of [apply_temporal_mask] on a batch of shape (N, S, M) and a
    mask of shape (N, S) whose number of True entries is [N * K]. *)
Lemma apply_temporal_mask_run (w : world rng) (xl ml : loc)
    (x : tensor float) (mask : tensor bool) (N T M K : nat) :
  heap w !! xl = Some (CFloat x) -> heap w !! ml = Some (CBool mask) ->
  shape x = [N; T; M] -> wf_tensor x ->
  shape mask = [N; T] -> wf_tensor mask ->
  0 < N -> length (nonzero (data mask)) = N * K ->
  let r := {| shape := [N; K; M];
              data := flat_map (slice M (data x)) (nonzero (data mask));
              device := device x |} in
  apply_temporal_mask xl ml w =
    (Ok (length (heap w)),
     World (heap w ++ [CFloat r]) (gen w) (requests w)) /\
  wf_tensor r /\
  forall n k, n < N -> k < K ->
    feature r n k = slice M (data x) (nth (n * K + k) (nonzero (data mask)) 0).
Proof.
  intros Hx Hm Hshape Hwf Hmshape Hmwf HN Hlen r.
  unfold wf_tensor in Hwf, Hmwf.
  rewrite Hshape, numel3 in Hwf. rewrite Hmshape, numel2 in Hmwf.
  assert (Hslices : Forall (fun p => length (slice M (data x) p) = M)
                           (nonzero (data mask))).
  { apply Forall_forall. intros p Hp%list_elem_of_In%nonzero_lt.
    apply (length_slice _ M (N * T)); lia. }
  split.
  { unfold apply_temporal_mask, bind, load_mask, bind, load.
    rewrite Hx, Hm. simpl.
    unfold getitem_mask, size0, unflatten0.
    rewrite Hshape, Hmshape. simpl.
    destruct (decide _) as [_|?]; [|done]. simpl.
    destruct (Nat.eqb_spec N 0) as [?|_]; [lia|].
    rewrite Hlen, numel1, (Nat.mul_comm N K), Nat.Div0.mod_mul.
    simpl. by rewrite Nat.div_mul by lia. }
  split.
  { unfold wf_tensor. simpl. rewrite numel3.
    rewrite (flat_map_constant_length (c := M)).
    - rewrite Hlen. lia.
    - intros a Ha%list_elem_of_In.
      by apply (proj1 (Forall_forall _ _) Hslices). }
  intros n k Hn Hk. unfold feature. simpl. unfold slice at 1.
  by rewrite (take_drop_flat_map _ M _ _ 0 Hslices)
    by (rewrite Hlen; by apply index2_lt).
Qed.

(** Row counts need not be equal for [apply_temporal_mask] to return: with
    N >= 1 it is enough that the number of True entries of the whole mask
    is a multiple [N * K] of N.  The result has shape (N, K, M) and holds
    the masked feature vectors in the row-major order of the whole mask, so
    that entry (n, k) is the (n * K + k)-th masked vector of the batch,
    whichever batch row it comes from; nothing else changes. *)
Theorem apply_temporal_mask_flattens (w : world rng) (xl ml : loc)
    (x : tensor float) (mask : tensor bool) (N T M K : nat) :
  heap w !! xl = Some (CFloat x) -> heap w !! ml = Some (CBool mask) ->
  shape x = [N; T; M] -> wf_tensor x ->
  shape mask = [N; T] -> wf_tensor mask ->
  0 < N -> count_true (data mask) = N * K ->
  exists r w',
    apply_temporal_mask xl ml w = (Ok (length (heap w)), w') /\
    heap w' = heap w ++ [CFloat r] /\
    gen w' = gen w /\ requests w' = requests w /\
    shape r = [N; K; M] /\ wf_tensor r /\
    forall n k, n < N -> k < K ->
      feature r n k =
        slice M (data x) (nth (n * K + k) (nonzero (data mask)) 0).
Proof.
  intros Hx Hm Hshape Hwf Hmshape Hmwf HN Hcount.
  rewrite <- length_nonzero in Hcount.
  destruct (apply_temporal_mask_run w xl ml x mask N T M K
              Hx Hm Hshape Hwf Hmshape Hmwf HN Hcount)
    as (Hrun & Hwfr & Hfeat).
  eexists _, _. split; [exact Hrun|]. simpl. by repeat (split; [done|]).
Qed.

(** [apply_temporal_mask] raises RuntimeError, and changes nothing, when
    the batch is empty (N = 0) or the number of True entries of the mask
    is not a multiple of N. *)
Theorem apply_temporal_mask_ragged (w : world rng) (xl ml : loc)
    (x : tensor float) (mask : tensor bool) (N T M : nat) :
  heap w !! xl = Some (CFloat x) -> heap w !! ml = Some (CBool mask) ->
  shape x = [N; T; M] -> shape mask = [N; T] ->
  N = 0 \/ count_true (data mask) mod N <> 0 ->
  apply_temporal_mask xl ml w = (Raise RuntimeError, w).
Proof.
  intros Hx Hm Hshape Hmshape Hbad.
  rewrite <- length_nonzero in Hbad.
  unfold apply_temporal_mask, bind, load_mask, bind, load.
  rewrite Hx, Hm. simpl.
  unfold getitem_mask, size0, unflatten0.
  rewrite Hshape, Hmshape. simpl.
  destruct (decide _) as [_|?]; [|done]. simpl.
  destruct (Nat.eqb_spec N 0) as [?|HN]; [done|].
  destruct Hbad as [?|Hbad]; [done|].
  by destruct (Nat.eqb_spec (length (nonzero (data mask)) mod N) 0).
Qed.

End GatherMore.

Section Compositions.
Context {rng : Type}.
Variable compute_mask :
  mask_request -> rng -> outcome (option (tensor bool)) * rng.

(** Masking, then gathering with the returned mask: after a returning
    [forward] without spatial masking on a batch with N >= 1 whose
    temporal mask has [K] True entries in every row,
    [apply_temporal_mask] on the returned pair gives a tensor of shape
    (N, K, M) in which every feature vector is the embedding. *)
Theorem forward_then_gather self seqs seq_lens (w w1 : world rng)
    out tmask x e tm N T M K :
  float_gt (max_spatial_mask_prob self) zero = false ->
  sampler_shape_contract compute_mask ->
  heap w !! seqs = Some (CFloat x) -> shape x = [N; T; M] -> wf_tensor x ->
  owns_embed w self e ->
  forward compute_mask self seqs seq_lens w = (Ok (out, tmask), w1) ->
  heap w1 !! tmask = Some (CBool tm) ->
  0 < N -> (forall n, n < N -> row_count tm n = K) ->
  exists r w2,
    apply_temporal_mask out tmask w1 = (Ok (length (heap w1)), w2) /\
    heap w2 !! length (heap w1) = Some (CFloat r) /\
    shape r = [N; K; M] /\
    forall n k, n < N -> k < K -> feature r n k = broadcast_vec M e.
Proof.
  intros Hoff Hcontract Hx Hshape Hwf Hown Hrun Htm HN Hcount.
  destruct (forward_values compute_mask self seqs seq_lens w w1 out tmask x e
              Hcontract Hx Hwf Hown Hrun)
    as (N' & T' & M' & tm' & g1 & x1 & osm & Hshape' & -> & -> & _ & Htms
        & Hwftm & Hheap1 & Hshape1 & Hwf1 & Hlen & Hosm & Hat).
  rewrite Hshape in Hshape'. injection Hshape' as <- <- <-.
  destruct osm as [sm|]; [destruct Hosm; congruence|].
  pose proof (lookup_lt_Some _ _ _ Hx) as Hlt.
  assert (tm' = tm) as ->.
  { rewrite Hheap1, lookup_new_object in Htm by done. congruence. }
  assert (Hx1 : heap w1 !! seqs = Some (CFloat x1)).
  { rewrite Hheap1. by apply lookup_written_object. }
  destruct (nonzero_equal_rows tm N T K Htms Hwftm Hcount) as [Hnz Hnth].
  destruct (apply_temporal_mask_run w1 seqs (length (heap w)) x1 tm N T M K
              Hx1 Htm Hshape1 Hwf1 Htms Hwftm HN Hnz)
    as (Hgather & _ & Hfeat).
  eexists _, _. split; [exact Hgather|]. simpl.
  split; [by rewrite lookup_app_r, Nat.sub_diag by lia|].
  split; [done|].
  intros n k Hn Hk. rewrite Hfeat, Hnth by done.
  destruct (masked_positions_nth tm N T n k Htms) as [Hs Hmasked];
    [by rewrite (Hcount n Hn)|].
  set (s := nth k (masked_positions tm n) 0) in *.
  transitivity (feature x1 n s); [unfold feature; by rewrite Hshape1|].
  apply (feature_ext x1 _ N T M); try done.
  intros m Hm. rewrite Hat by done. simpl. by rewrite Hmasked.
Qed.

End Compositions.

(** * The further properties on the example worlds *)

Lemma cautious_shape_contract : sampler_shape_contract cautious_compute_mask.
Proof.
  intros req g m g'. unfold cautious_compute_mask.
  destruct (_ <=? _)%Z; [done|]. apply striped_shape_contract.
Qed.

Lemma init_refusals_witness :
  __init__ counting_uniform 2 10 (S754_zero true) 10 zero None example_world =
    (Raise (ValueError "`max_temporal_mask_prob` must be greater than 0."),
     example_world).
Proof.
  apply (proj1 (init_refusals counting_uniform 2 10 (S754_zero true) 10 zero
                  None example_world)).
  by exists true.
Defined.

Lemma init_allocates_embedding_witness :
  exists e,
    heap (snd (__init__ counting_uniform 2 10 one_half 10 zero (Some "cuda:0"%string)
                 example_world)) = heap example_world ++ [CFloat e] /\
    shape e = [2] /\ device e = "cuda:0"%string /\
    gen (snd (__init__ counting_uniform 2 10 one_half 10 zero (Some "cuda:0"%string)
                example_world)) = 2.
Proof.
  destruct (init_allocates_embedding counting_uniform 2 10 one_half 10 zero
              (Some "cuda:0"%string) example_world
              (snd (__init__ counting_uniform 2 10 one_half 10 zero
                      (Some "cuda:0"%string) example_world))
              (Build_Wav2Vec2Masker 10 one_half 2 10 zero))
    as (_ & _ & _ & e & Hheap & Hshape & _ & Hdev & _ & Hgen & _);
    [vm_compute; reflexivity|].
  exists e. by repeat split.
Defined.

Lemma reset_parameters_redraws_witness :
  exists e' w',
    reset_parameters counting_uniform (example_masker zero) example_world
      = (Ok tt, w') /\
    owns_embed w' (example_masker zero) e' /\
    gen w' = 2 /\
    heap w' !! 1 = heap example_world !! 1.
Proof.
  destruct (reset_parameters_redraws counting_uniform (example_masker zero)
              example_world example_embed (example_owns_embed zero))
    as (e' & w' & Hrun & Hown & _ & _ & _ & _ & Hgen & _ & Hsame & _).
  exists e', w'. repeat split; try done; try apply Hown. by apply Hsame.
Defined.

Lemma forward_needs_three_axes_witness :
  exists msg,
    forward striped_compute_mask (example_masker zero) 0 None example_world
      = (Raise (ValueError msg), example_world).
Proof.
  apply (forward_needs_three_axes striped_compute_mask (example_masker zero)
           0 None example_world (CFloat example_embed));
    [reflexivity|vm_compute; lia].
Defined.

Lemma forward_without_temporal_mask_witness :
  forward cautious_compute_mask (example_masker_spans 5 1 zero) 1 None
    example_world =
    (Raise AssertionError,
     World (heap example_world) 1
       [temporal_request (example_masker_spans 5 1 zero) 1 2 None "cpu"]).
Proof.
  apply (forward_without_temporal_mask cautious_compute_mask
           (example_masker_spans 5 1 zero) 1 None example_world
           (CFloat example_batch) 1 2 2 (Ok None) 1);
    [reflexivity|reflexivity|reflexivity|done].
Defined.

Lemma forward_spatial_failure_witness :
  exists x1 w',
    forward cautious_compute_mask (example_masker_spans 1 5 one_half) 1 None
      example_world = (Raise AssertionError, w') /\
    heap w' !! 1 = Some (CFloat x1) /\
    at3 x1 zero 0 0 0 = one_half /\
    at3 example_batch zero 0 0 0 = pow2 0.
Proof.
  destruct (forward_spatial_failure_keeps_temporal_write cautious_compute_mask
              (example_masker_spans 1 5 one_half) 1 None example_world
              example_batch example_embed 1 2 2 2
              {| shape := [1; 2]; data := [true; false]; device := "cpu" |}
              1 (Ok None) 2 cautious_shape_contract)
    as (x1 & w' & Hrun & Hx1 & _ & Hat);
    [reflexivity|reflexivity|reflexivity|reflexivity|reflexivity|reflexivity
    |by left|reflexivity|reflexivity|reflexivity|done|].
  exists x1, w'. split; [exact Hrun|]. split; [exact Hx1|].
  split; [|reflexivity].
  rewrite (Hat 0 0 0 zero) by lia. reflexivity.
Defined.

Lemma forward_dimension_mismatch_witness :
  exists w',
    forward striped_compute_mask (example_masker zero) 1 None misfit_world
      = (Raise RuntimeError, w') /\
    heap w' !! 1 = Some (CFloat example_batch).
Proof.
  destruct (forward_dimension_mismatch striped_compute_mask
              (example_masker zero) 1 None misfit_world example_batch
              {| shape := [3]; data := [one_half; one_half; one_half];
                 device := "cpu" |}
              1 2 2 3
              {| shape := [1; 2]; data := [true; false]; device := "cpu" |}
              1 striped_shape_contract)
    as (w' & Hrun & Hx & _);
    [reflexivity|reflexivity|reflexivity|reflexivity|lia|lia|reflexivity|].
  by exists w'.
Defined.

Lemma forward_keeps_layout_witness :
  exists x x',
    heap example_world !! 1 = Some (CFloat x) /\
    heap (snd (forward striped_compute_mask (example_masker one_half) 1 None
                 example_world)) !! 1 = Some (CFloat x') /\
    shape x' = shape x /\ device x' = device x /\
    length (data x') = length (data x) /\
    (wf_tensor x -> wf_tensor x').
Proof.
  apply (forward_keeps_layout striped_compute_mask (example_masker one_half)
           1 None example_world _ 1 2).
  vm_compute; reflexivity.
Defined.

Lemma forward_twice_accumulates_witness :
  exists N T M tm1 tm2 x2,
    shape example_batch = [N; T; M] /\
    heap (snd (forward striped_compute_mask (example_masker zero) 1 None
                 (snd (forward striped_compute_mask (example_masker zero) 1
                         None example_world)))) !! 2 = Some (CBool tm1) /\
    heap (snd (forward striped_compute_mask (example_masker zero) 1 None
                 (snd (forward striped_compute_mask (example_masker zero) 1
                         None example_world)))) !! 3 = Some (CBool tm2) /\
    2 <> 3 /\
    heap (snd (forward striped_compute_mask (example_masker zero) 1 None
                 (snd (forward striped_compute_mask (example_masker zero) 1
                         None example_world)))) !! 1 = Some (CFloat x2) /\
    forall n s, n < N -> s < T ->
      feature x2 n s =
        if at2 tm1 false n s || at2 tm2 false n s
        then broadcast_vec M example_embed else feature example_batch n s.
Proof.
  apply (forward_twice_accumulates striped_compute_mask (example_masker zero)
           1 None None example_world
           (snd (forward striped_compute_mask (example_masker zero) 1 None
                   example_world))
           _ 1 2 1 3 example_batch example_embed);
    [reflexivity|apply striped_shape_contract|reflexivity|reflexivity
    |apply example_owns_embed|vm_compute; reflexivity|vm_compute; reflexivity].
Defined.

Lemma apply_temporal_mask_flattens_witness :
  exists r w',
    apply_temporal_mask 0 1 ragged_world = (Ok 3, w') /\
    heap w' = heap ragged_world ++ [CFloat r] /\
    gen w' = gen ragged_world /\ requests w' = requests ragged_world /\
    shape r = [2; 1; 1] /\ wf_tensor r /\
    forall n k, n < 2 -> k < 1 ->
      feature r n k =
        slice 1 [pow2 0; pow2 1; pow2 2; pow2 3]
          (nth (n * 1 + k) (nonzero [true; true; false; false]) 0).
Proof.
  apply (apply_temporal_mask_flattens ragged_world 0 1
           {| shape := [2; 2; 1]; data := [pow2 0; pow2 1; pow2 2; pow2 3];
              device := "cpu" |}
           {| shape := [2; 2]; data := [true; true; false; false];
              device := "cpu" |} 2 2 1 1);
    [reflexivity|reflexivity|reflexivity|reflexivity|reflexivity|reflexivity
    |lia|reflexivity].
Defined.

Lemma apply_temporal_mask_ragged_witness :
  apply_temporal_mask 0 2 ragged_world = (Raise RuntimeError, ragged_world).
Proof.
  apply (apply_temporal_mask_ragged ragged_world 0 2
           {| shape := [2; 2; 1]; data := [pow2 0; pow2 1; pow2 2; pow2 3];
              device := "cpu" |}
           {| shape := [2; 2]; data := [true; false; false; false];
              device := "cpu" |} 2 2 1);
    [reflexivity|reflexivity|reflexivity|reflexivity|].
  right. vm_compute. lia.
Defined.

Lemma forward_then_gather_witness :
  exists r w2,
    apply_temporal_mask 1 2
      (snd (forward striped_compute_mask (example_masker zero) 1 None
              example_world)) = (Ok 3, w2) /\
    heap w2 !! 3 = Some (CFloat r) /\
    shape r = [1; 1; 2] /\
    forall n k, n < 1 -> k < 1 ->
      feature r n k = broadcast_vec 2 example_embed.
Proof.
  apply (forward_then_gather striped_compute_mask (example_masker zero) 1 None
           example_world
           (snd (forward striped_compute_mask (example_masker zero) 1 None
                   example_world))
           1 2 example_batch example_embed
           {| shape := [1; 2]; data := [true; false]; device := "cpu" |}
           1 2 2 1);
    [reflexivity|apply striped_shape_contract|reflexivity|reflexivity
    |reflexivity|apply example_owns_embed|vm_compute; reflexivity
    |reflexivity|lia|].
  intros n Hn. assert (n = 0) as -> by lia. reflexivity.
Defined.

